(** * generate_libelles: the translation import of the Evolution Generator

  A shallow embedding of
  [packages/evolution-generator/src/scripts/generate_libelles.py]
  and the properties of its notation rewriter, of its per-file
  translation stores and of the import loop.

  Conventions of the embedding.
  - A Python [str] is a list of Unicode code points ([pystr]); [len] is
    the length of that list, as in Python.
  - A Python [dict] is an association list in insertion order.
  - A [while] loop that may not finish for arbitrary arguments takes a
    bound on its number of iterations; [Hang] is the outcome of a loop
    that exceeds it.
  - An exception aborts the computation ([Raise]); console output
    ([print]) is not part of the model. *)

From Stdlib Require Import String Ascii.
From Stdlib Require Import List Bool Arith NArith ZArith Lia.
Import ListNotations.
Local Open Scope list_scope.

Set Implicit Arguments.
Set Warnings "-register-all".

(** ** Python strings *)

Module PyStr.

Definition pystr := list N.

(** The code points of a literal. *)
Definition str (s : string) : pystr :=
  map N_of_ascii (list_ascii_of_string s).

(** The double-quote character. *)
Definition dquote : pystr := [34%N].

Fixpoint eqb (a b : pystr) : bool :=
  match a, b with
  | [], [] => true
  | x :: a', y :: b' => N.eqb x y && eqb a' b'
  | _, _ => false
  end.

(** [s.startswith(p)] *)
Fixpoint startswith (s p : pystr) : bool :=
  match p, s with
  | [], _ => true
  | x :: p', y :: s' => N.eqb x y && startswith s' p'
  | _ :: _, [] => false
  end.

(** [s.endswith(p)] *)
Definition endswith (s p : pystr) : bool :=
  startswith (rev s) (rev p).

(** [sub in s] *)
Fixpoint contains (sub s : pystr) : bool :=
  startswith s sub ||
  match s with
  | [] => false
  | _ :: t => contains sub t
  end.

(** [s.count(sub)]: the number of non-overlapping occurrences, scanning
    from the left.  [skip] is the number of characters still covered by
    the occurrence just counted. *)
Fixpoint count_from (sub : pystr) (skip : nat) (s : pystr) : nat :=
  match s with
  | [] =>
      match sub with
      | [] => 1
      | _ :: _ => 0
      end
  | _ :: t =>
      match skip with
      | S k => count_from sub k t
      | O =>
          if startswith s sub
          then S (count_from sub (Nat.pred (length sub)) t)
          else count_from sub 0 t
      end
  end.

Definition count (s sub : pystr) : nat := count_from sub 0 s.

(** [s.replace(old, new, 1)]: only the leftmost occurrence. *)
Fixpoint replace1 (s old new : pystr) : pystr :=
  if startswith s old then new ++ skipn (length old) s
  else
    match s with
    | [] => []
    | c :: t => c :: replace1 t old new
    end.

(** [s.replace(old, new)] for a non-empty [old]: every non-overlapping
    occurrence, scanning from the left. *)
Fixpoint replace_from (old new : pystr) (skip : nat) (s : pystr) : pystr :=
  match s with
  | [] => []
  | c :: t =>
      match skip with
      | S k => replace_from old new k t
      | O =>
          if startswith s old
          then new ++ replace_from old new (Nat.pred (length old)) t
          else c :: replace_from old new 0 t
      end
  end.

(** [s.replace(old, new)]; with an empty [old], Python inserts [new]
    before every character and at the end. *)
Definition replace (s old new : pystr) : pystr :=
  match old with
  | [] => new ++ flat_map (fun c => c :: new) s
  | _ :: _ => replace_from old new 0 s
  end.

(** [s.rstrip(c)] for a single character [c]. *)
Definition rstrip (s : pystr) (c : N) : pystr :=
  rev ((fix drop (r : pystr) : pystr :=
          match r with
          | [] => []
          | x :: r' => if N.eqb x c then drop r' else r
          end) (rev s)).

(** [s.split(c)] for a single character separator [c]. *)
Fixpoint split (s : pystr) (c : N) : list pystr :=
  match s with
  | [] => [[]]
  | x :: t =>
      if N.eqb x c then [] :: split t c
      else
        match split t c with
        | [] => [[x]]
        | w :: ws => (x :: w) :: ws
        end
  end.

(** [sep.join(parts)] *)
Fixpoint join (sep : pystr) (parts : list pystr) : pystr :=
  match parts with
  | [] => []
  | [p] => p
  | p :: ps => p ++ sep ++ join sep ps
  end.

End PyStr.

Import PyStr.

(** ** Outcomes *)

Inductive exn : Type :=
| Exception (msg : pystr)
| TypeError
| AttributeError
| IndexError
| KeyError
| FileNotFoundError
| IsADirectoryError
| NotADirectoryError
| YAMLError.

Inductive result (A : Type) : Type :=
| Ok (a : A)
| Raise (e : exn)
| Hang.

Arguments Ok {A} a.
Arguments Raise {A} e.
Arguments Hang {A}.

Definition bind {A B : Type} (m : result A) (f : A -> result B) : result B :=
  match m with
  | Ok a => f a
  | Raise e => Raise e
  | Hang => Hang
  end.

Notation "x <- m ;; k" := (bind m (fun x => k))
  (at level 61, m at next level, right associativity).

(** [try: m except Exception: raise e] *)
Definition except_reraise {A : Type} (m : result A) (e : exn) : result A :=
  match m with
  | Ok a => Ok a
  | Raise _ => Raise e
  | Hang => Hang
  end.

(** ** class ValueReplacer *)

Module ValueReplacer.

Definition startBoldHtml := str "<strong>".
Definition endBoldHtml := str "</strong>".
Definition boldNotation := str "**".

Definition startOblique :=
  str "<span class=" ++ dquote ++ str "_pale _oblique" ++ dquote ++ str ">".
Definition endOblique := str "</span>".
Definition obliqueNotation := str "__".

Definition startGreen :=
  str "<span style=" ++ dquote ++ str "color: green;" ++ dquote ++ str ">".
Definition endGreen := str "</span>".
Definition greenNotation := str "_green_".

Definition startRed :=
  str "<span style=" ++ dquote ++ str "color: red;" ++ dquote ++ str ">".
Definition endRed := str "</span>".
Definition redNotation := str "_red_".

(** The [while notation in replacedStr] loop of [replaceStartEnd].  [fuel]
    bounds the number of times the loop condition is evaluated. *)
Fixpoint replaceLoop (fuel : nat) (notation startReplaced endReplaced : pystr)
  (replacedStr : pystr) (replacedCount : nat) : result pystr :=
  match fuel with
  | O => Hang
  | S fuel' =>
      if contains notation replacedStr then
        let replaceWith :=
          if Nat.even replacedCount then startReplaced else endReplaced in
        replaceLoop fuel' notation startReplaced endReplaced
          (replace1 replacedStr notation replaceWith) (S replacedCount)
      else Ok replacedStr
  end.

Definition replaceStartEnd (fuel : nat)
  (string notation startReplaced endReplaced : pystr) : result pystr :=
  if contains notation string && Nat.even (count string notation) then
    replaceLoop fuel notation startReplaced endReplaced string 0
  else Ok string.

(** The line-break character and its markup. *)
Definition newline : pystr := [10%N].
Definition brHtml : pystr := str "<br />".

(** Each stage runs its loop for at most [len(replacedStr) + 1] tests of
    the loop condition, which the four fixed notations never exceed. *)
Definition replace (string : pystr) : result pystr :=
  let replacedStr := PyStr.replace string newline brHtml in
  replacedStr <- replaceStartEnd (S (length replacedStr)) replacedStr
                   boldNotation startBoldHtml endBoldHtml ;;
  replacedStr <- replaceStartEnd (S (length replacedStr)) replacedStr
                   obliqueNotation startOblique endOblique ;;
  replacedStr <- replaceStartEnd (S (length replacedStr)) replacedStr
                   greenNotation startGreen endGreen ;;
  replaceStartEnd (S (length replacedStr)) replacedStr
    redNotation startRed endRed.

End ValueReplacer.

(** ** Python values and dictionaries *)

(** The values a spreadsheet cell, a plain YAML scalar or a key of a
    mapping can hold, as far as the program distinguishes them: [None], a
    number, a [str], and a [datetime], [date] or [time] ([t] tells one
    such value from another). *)
Inductive pyval : Type :=
| VNone
| VInt (z : Z)
| VStr (s : pystr)
| VDate (t : Z).

Definition pyval_eqb (a b : pyval) : bool :=
  match a, b with
  | VNone, VNone => true
  | VInt x, VInt y => Z.eqb x y
  | VStr x, VStr y => PyStr.eqb x y
  | VDate x, VDate y => Z.eqb x y
  | _, _ => false
  end.

(** What the round-trip loader of ruamel.yaml gives for a node: a plain
    scalar; a block scalar, which is a [FoldedScalarString] (written [>])
    or a [LiteralScalarString] (written [|]), both subclasses of [str]; a
    sequence; a mapping, whose keys are plain scalars.  An empty document
    is [None]. *)
Inductive yamlval : Type :=
| YScalar (v : pyval)
| YFolded (s : pystr)
| YLiteral (s : pystr)
| YSeq (items : list yamlval)
| YMap (items : list (pyval * yamlval)).

Coercion YScalar : pyval >-> yamlval.

Module PyDict.
Section Dict.

Variables K V : Type.
Variable keq : K -> K -> bool.

(** [d.get(k)] *)
Fixpoint get (d : list (K * V)) (k : K) : option V :=
  match d with
  | [] => None
  | (k', v) :: d' => if keq k' k then Some v else get d' k
  end.

(** [k in d] *)
Definition mem (d : list (K * V)) (k : K) : bool :=
  match get d k with
  | Some _ => true
  | None => false
  end.

(** [d[k] = v]: an existing key keeps its position, a new one goes last. *)
Fixpoint set (d : list (K * V)) (k : K) (v : V) : list (K * V) :=
  match d with
  | [] => [(k, v)]
  | (k', v') :: d' =>
      if keq k' k then (k', v) :: d' else (k', v') :: set d' k v
  end.

Definition keys (d : list (K * V)) : list K := map fst d.

End Dict.
End PyDict.

(** ** os.path (POSIX) and the file system *)

Module os_path.

Definition sep : N := 47%N.
Definition extsep : N := 46%N.

Fixpoint all_sep (p : pystr) : bool :=
  match p with
  | [] => true
  | c :: p' => N.eqb c sep && all_sep p'
  end.

(** The characters of [r] before its first separator, and the rest. *)
Fixpoint span_name (r : pystr) : pystr * pystr :=
  match r with
  | [] => ([], [])
  | c :: r' =>
      if N.eqb c sep then ([], r)
      else let (n, rest) := span_name r' in (c :: n, rest)
  end.

(** [os.path.split(p)]: cut after the last separator. *)
Definition split (p : pystr) : pystr * pystr :=
  let (t, h) := span_name (rev p) in
  let head := rev h in
  (if all_sep head then head else rstrip head sep, rev t).

Definition dirname (p : pystr) : pystr := fst (split p).
Definition basename (p : pystr) : pystr := snd (split p).

(** [os.path.join(a, b)] *)
Definition join (a b : pystr) : pystr :=
  if startswith b [sep] then b
  else if PyStr.eqb a [] || endswith a [sep] then a ++ b
  else a ++ [sep] ++ b.

(** The component loop of [os.path.normpath]. *)
Fixpoint norm_comps (initial_slashes : nat) (comps new_comps : list pystr)
  : list pystr :=
  match comps with
  | [] => new_comps
  | comp :: comps' =>
      if PyStr.eqb comp [] || PyStr.eqb comp [extsep] then
        norm_comps initial_slashes comps' new_comps
      else if negb (PyStr.eqb comp [extsep; extsep])
              || (Nat.eqb initial_slashes 0 && Nat.eqb (length new_comps) 0)
              || (match rev new_comps with
                  | l :: _ => PyStr.eqb l [extsep; extsep]
                  | [] => false
                  end) then
        norm_comps initial_slashes comps' (new_comps ++ [comp])
      else
        norm_comps initial_slashes comps' (removelast new_comps)
  end.

(** [os.path.normpath(path)] *)
Definition normpath (path : pystr) : pystr :=
  match path with
  | [] => [extsep]
  | _ :: _ =>
      let initial_slashes :=
        if startswith path [sep] then
          if startswith path [sep; sep] && negb (startswith path [sep; sep; sep])
          then 2 else 1
        else 0 in
      let comps := norm_comps initial_slashes (PyStr.split path sep) [] in
      let path' := repeat sep initial_slashes ++ PyStr.join [sep] comps in
      match path' with
      | [] => [extsep]
      | _ :: _ => path'
      end
  end.

(** [os.path.splitext(p)[0]] for a [p] without separator: the extension
    starts at the last dot, unless only dots come before it. *)
Definition splitext_root (p : pystr) : pystr :=
  let (e, r) := (fix span_ext (r : pystr) : pystr * pystr :=
                   match r with
                   | [] => ([], [])
                   | c :: r' =>
                       if N.eqb c extsep then ([c], r')
                       else let (e, rest) := span_ext r' in (c :: e, rest)
                   end) (rev p) in
  if existsb (fun c => negb (N.eqb c extsep)) r
     && existsb (N.eqb extsep) e
  then rev r else p.

End os_path.

Module FS.

(** A directory tree; the paths of the program are resolved from its root,
    which is also the working directory. *)
Inductive node : Type :=
| File (content : pystr)
| Dir (entries : list (pystr * node)).

Definition lookup (entries : list (pystr * node)) (name : pystr) : option node :=
  PyDict.get PyStr.eqb entries name.

(** The node at a list of entry names. *)
Fixpoint lookup_path (n : node) (names : list pystr) : option node :=
  match names with
  | [] => Some n
  | c :: cs =>
      match n with
      | File _ => None
      | Dir es =>
          match lookup es c with
          | Some m => lookup_path m cs
          | None => None
          end
      end
  end.

(** POSIX path resolution without symbolic links: the entry names a path
    denotes.  [stack] holds the names walked so far, innermost first; every
    component is looked up in a directory that exists. *)
Fixpoint resolve (top : node) (stack : list pystr) (comps : list pystr)
  : result (list pystr) :=
  match comps with
  | [] => Ok (rev stack)
  | c :: cs =>
      match lookup_path top (rev stack) with
      | Some (Dir _) =>
          if PyStr.eqb c [] || PyStr.eqb c [os_path.extsep] then
            resolve top stack cs
          else if PyStr.eqb c [os_path.extsep; os_path.extsep] then
            resolve top (tl stack) cs
          else resolve top (c :: stack) cs
      | Some (File _) => Raise NotADirectoryError
      | None => Raise FileNotFoundError
      end
  end.

Definition names_of (top : node) (path : pystr) : result (list pystr) :=
  match path with
  | [] => Raise FileNotFoundError
  | _ :: _ => resolve top [] (PyStr.split path os_path.sep)
  end.

(** [open(path, "r").read()] *)
Definition read (top : node) (path : pystr) : result pystr :=
  names <- names_of top path ;;
  match lookup_path top names with
  | Some (File c) => Ok c
  | Some (Dir _) => Raise IsADirectoryError
  | None => Raise FileNotFoundError
  end.

(** The tree with the file at [names] created or replaced. *)
Fixpoint put (n : node) (names : list pystr) (content : pystr) : result node :=
  match names with
  | [] =>
      match n with
      | File _ => Ok (File content)
      | Dir _ => Raise IsADirectoryError
      end
  | c :: cs =>
      match n with
      | File _ => Raise NotADirectoryError
      | Dir es =>
          match lookup es c with
          | Some m =>
              m' <- put m cs content ;;
              Ok (Dir (PyDict.set PyStr.eqb es c m'))
          | None =>
              match cs with
              | [] => Ok (Dir (PyDict.set PyStr.eqb es c (File content)))
              | _ :: _ => Raise FileNotFoundError
              end
          end
      end
  end.

(** [open(path, "w")], the writes, and the close. *)
Definition write (top : node) (path : pystr) (content : pystr) : result node :=
  names <- names_of top path ;;
  put top names content.

(** A name that [glob] skips unless the pattern starts with a dot. *)
Definition hidden (name : pystr) : bool := startswith name [os_path.extsep].

Definition yml : pystr := str ".yml".

(** [glob(escape(localesPath) + "/**/*.yml")].  [escape] makes every
    character of [localesPath] literal.  The call does not pass
    [recursive=True], so [**] matches as [*] does: one path component,
    here a directory.  [glob] splits the pattern with [os.path.split],
    lists the directories with [scandir], skips hidden names, and builds
    each result with [os.path.join]; a directory it cannot list yields
    nothing. *)
Definition glob_yml (top : node) (localesPath : pystr) : list pystr :=
  let pattern := localesPath ++ str "/**/*.yml" in
  let head := os_path.dirname (os_path.dirname pattern) in
  match names_of top head with
  | Ok names =>
      match lookup_path top names with
      | Some (Dir es) =>
          flat_map
            (fun e : pystr * node =>
               match snd e with
               | Dir fs =>
                   if hidden (fst e) then []
                   else
                     map (fun f => os_path.join (os_path.join head (fst e)) f)
                       (filter (fun f => negb (hidden f) && endswith f yml)
                          (map fst fs))
               | File _ => []
               end)
            es
      | _ => []
      end
  | _ => []
  end.

End FS.

(** ** class TranslationLangNs: one language and section, one file *)

Module TranslationLangNs.

(** A stored value: a plain [str]; ruamel's [FoldedScalarString], which is
    written as a folded block scalar; or, for a value that was loaded and
    kept as it was, a [LiteralScalarString], a sequence or a mapping.
    [FoldedScalarStringOf v] is [FoldedScalarString(v)] for a sequence or
    mapping [v]: a folded string that holds [str(v)]. *)
Inductive yamlstr : Type :=
| PlainStr (s : pystr)
| FoldedScalarString (s : pystr)
| LiteralScalarString (s : pystr)
| Collection (v : yamlval)
| FoldedScalarStringOf (v : yamlval).

(** The characters of a stored string.  The text [str(v)] of a sequence or
    mapping is not modelled: [text] is empty for the two last forms. *)
Definition text (y : yamlstr) : pystr :=
  match y with
  | PlainStr s | FoldedScalarString s | LiteralScalarString s => s
  | Collection _ | FoldedScalarStringOf _ => []
  end.

Record store : Type := mkStore {
  modified : bool;
  data : list (pyval * yamlstr);
  file : pystr;
  startBoldHtml : pystr;
  endBoldHtml : pystr
}.

Definition __init__ (inputFile : pystr) : store :=
  {| modified := false;
     data := [];
     file := inputFile;
     startBoldHtml := str "<strong>";
     endBoldHtml := str "</strong>" |}.

Definition set_data (self : store) (d : list (pyval * yamlstr)) : store :=
  {| modified := modified self;
     data := d;
     file := file self;
     startBoldHtml := startBoldHtml self;
     endBoldHtml := endBoldHtml self |}.

Definition set_modified (self : store) (m : bool) : store :=
  {| modified := m;
     data := data self;
     file := file self;
     startBoldHtml := startBoldHtml self;
     endBoldHtml := endBoldHtml self |}.

(** [x == "\n"] for an element [x] of a sequence: a [str] and its
    subclasses compare by their characters. *)
Definition is_newline (x : yamlval) : bool :=
  match x with
  | YScalar (VStr s) | YFolded s | YLiteral s =>
      PyStr.eqb s ValueReplacer.newline
  | YScalar (VNone | VInt _ | VDate _) | YSeq _ | YMap _ => false
  end.

(** [stringToYaml].  [in] is the substring test of a string, the
    membership test of a sequence and the key test of a mapping; [len]
    counts characters, elements or keys; both raise [TypeError] on
    [None], a number or a date.  The last [return str] gives back the
    object it received, with the class it has. *)
Definition stringToYaml (v : yamlval) : result yamlstr :=
  match v with
  | YScalar (VStr s) =>
      if contains ValueReplacer.newline s then Ok (FoldedScalarString s)
      else if 76 <? length s then Ok (FoldedScalarString s)
      else Ok (PlainStr s)
  | YFolded s =>
      if contains ValueReplacer.newline s then Ok (FoldedScalarString s)
      else if 76 <? length s then Ok (FoldedScalarString s)
      else Ok (FoldedScalarString s)
  | YLiteral s =>
      if contains ValueReplacer.newline s then Ok (FoldedScalarString s)
      else if 76 <? length s then Ok (FoldedScalarString s)
      else Ok (LiteralScalarString s)
  | YSeq items =>
      if existsb is_newline items then Ok (FoldedScalarStringOf v)
      else if 76 <? length items then Ok (FoldedScalarStringOf v)
      else Ok (Collection v)
  | YMap items =>
      if PyDict.mem pyval_eqb items (VStr ValueReplacer.newline) then
        Ok (FoldedScalarStringOf v)
      else if 76 <? length items then Ok (FoldedScalarStringOf v)
      else Ok (Collection v)
  | YScalar (VNone | VInt _ | VDate _) => Raise TypeError
  end.

(** The header [save] writes before the mapping. *)
Definition header : pystr :=
  str "# This file was automatically generated by the Evolution Generator."
  ++ ValueReplacer.newline
  ++ str "# The Evolution Generator is used to automate the creation of consistent, reliable code."
  ++ ValueReplacer.newline
  ++ str "# Any changes made to this file will be overwritten."
  ++ ValueReplacer.newline ++ ValueReplacer.newline.

Definition errorLoading : pystr := str "Error loading translation yaml file ".

Definition nom : pystr := str "[nom]".
Definition nickname : pystr := str "{{nickname}}".

Section Yaml.

(** ruamel.yaml: [yaml.load] of a file's text, which raises on text it
    cannot parse and otherwise gives the document, whatever its kind, and
    [yaml.dump] of a mapping, which gives its text. *)
Variable yaml_load : pystr -> result yamlval.
Variable yaml_dump : list (pyval * yamlstr) -> pystr.

(** The body of the [for path in translationData] loop when the document
    is a mapping, over the keys still to visit. *)
Fixpoint loadLoop (translationData : list (pyval * yamlval))
  (paths : list pyval) (d : list (pyval * yamlstr))
  : result (list (pyval * yamlstr)) :=
  match paths with
  | [] => Ok d
  | path :: paths' =>
      match PyDict.get pyval_eqb translationData path with
      | None => Raise KeyError
      | Some v =>
          y <- stringToYaml v ;;
          loadLoop translationData paths' (PyDict.set pyval_eqb d path y)
      end
  end.

(** [translationData[z]] for a sequence: a negative index counts from the
    end. *)
Definition index (translationData : list yamlval) (z : Z) : result yamlval :=
  let n := Z.of_nat (length translationData) in
  let i := if (z <? 0)%Z then (z + n)%Z else z in
  if ((0 <=? i) && (i <? n))%Z then
    match nth_error translationData (Z.to_nat i) with
    | Some v => Ok v
    | None => Raise IndexError
    end
  else Raise IndexError.

(** The same loop when the document is a sequence: [path] is an element,
    and [translationData[path]] raises [TypeError] unless it is a
    number. *)
Fixpoint loadSeqLoop (translationData : list yamlval)
  (paths : list yamlval) (d : list (pyval * yamlstr))
  : result (list (pyval * yamlstr)) :=
  match paths with
  | [] => Ok d
  | path :: paths' =>
      match path with
      | YScalar (VInt z) =>
          v <- index translationData z ;;
          y <- stringToYaml v ;;
          loadSeqLoop translationData paths'
            (PyDict.set pyval_eqb d (VInt z) y)
      | YScalar (VNone | VStr _ | VDate _) | YFolded _ | YLiteral _
      | YSeq _ | YMap _ => Raise TypeError
      end
  end.

(** [self.data = {}] and the loop, by the kind of the document.  That of
    a string runs over its characters, and [translationData[path]] raises
    [TypeError] at the first; [None], a number and a date cannot be
    iterated. *)
Definition loadDocument (translationData : yamlval)
  : result (list (pyval * yamlstr)) :=
  match translationData with
  | YMap items => loadLoop items (PyDict.keys items) []
  | YSeq items => loadSeqLoop items items []
  | YScalar (VStr s) | YFolded s | YLiteral s =>
      match s with
      | [] => Ok []
      | _ :: _ => Raise TypeError
      end
  | YScalar (VNone | VInt _ | VDate _) => Raise TypeError
  end.

Definition loadCurrentTranslations (fs : FS.node) (self : store)
  : result store :=
  stream <- FS.read fs (file self) ;;
  except_reraise
    (translationData <- yaml_load stream ;;
     d <- loadDocument translationData ;;
     Ok (set_data self d))
    (Exception (errorLoading ++ file self)).

Definition save (self : store) (fs : FS.node) : result FS.node :=
  if modified self then
    FS.write fs (file self) (header ++ yaml_dump (data self))
  else Ok fs.

End Yaml.

Definition addTranslation (self : store) (path value : pyval)
  (overwrite keepMarkdown : bool) : result store :=
  if negb overwrite && PyDict.mem pyval_eqb (data self) path then Ok self
  else
    value <- match value with
             | VStr s => Ok (PyStr.replace s nom nickname)
             | VNone | VInt _ => Raise AttributeError
             | VDate _ => Raise TypeError
             end ;;
    value <- (if negb keepMarkdown then ValueReplacer.replace value
              else Ok value) ;;
    y <- stringToYaml (VStr value) ;;
    Ok (set_modified (set_data self (PyDict.set pyval_eqb (data self) path y))
          true).

End TranslationLangNs.

(** ** class TranslationData: every store of a run *)

Module TranslationData.

Import TranslationLangNs.

(** One invocation of [addTranslation], with its arguments. *)
Record call : Type := mkCall {
  call_lang : pystr;
  call_section : pyval;
  call_path : pyval;
  call_value : pyval;
  call_overwrite : bool;
  call_keepMarkdown : bool
}.

(** [calls] is a ghost field: the invocations of [addTranslation] so far,
    oldest first.  The Python class has no such attribute; nothing reads
    it. *)
Record t : Type := mkData {
  translations : list (pystr * list (pyval * store));
  localesPath : pystr;
  calls : list call
}.

Definition __init__ (localesPath : pystr) : t :=
  {| translations := []; localesPath := localesPath; calls := [] |}.

Definition set_translations (self : t)
  (tr : list (pystr * list (pyval * store))) : t :=
  {| translations := tr; localesPath := localesPath self; calls := calls self |}.

Definition log_call (self : t) (c : call) : t :=
  {| translations := translations self;
     localesPath := localesPath self;
     calls := calls self ++ [c] |}.

(** [self.translations[lang]], once the key is known to be there. *)
Definition sections (tr : list (pystr * list (pyval * store))) (lang : pystr)
  : list (pyval * store) :=
  match PyDict.get PyStr.eqb tr lang with
  | Some d => d
  | None => []
  end.

(** [if not lang in self.translations: self.translations[lang] = {}] *)
Definition ensure_lang (tr : list (pystr * list (pyval * store)))
  (lang : pystr) : list (pystr * list (pyval * store)) :=
  if negb (PyDict.mem PyStr.eqb tr lang) then PyDict.set PyStr.eqb tr lang []
  else tr.

Definition addTranslations (self : t) (lang : pystr) (section : pyval)
  (translations' : store) : t :=
  let tr := ensure_lang (translations self) lang in
  set_translations self
    (PyDict.set PyStr.eqb tr lang
       (PyDict.set pyval_eqb (sections tr lang) section translations')).

(** [section + ".yml"] *)
Definition add_yml (section : pyval) : result pystr :=
  match section with
  | VStr s => Ok (s ++ FS.yml)
  | VNone | VInt _ | VDate _ => Raise TypeError
  end.

Definition addTranslation (self : t) (lang : pystr)
  (section path value : pyval) (overwrite keepMarkdown : bool) : result t :=
  let self := log_call self
                (mkCall lang section path value overwrite keepMarkdown) in
  let tr := ensure_lang (translations self) lang in
  tr <- (if negb (PyDict.mem pyval_eqb (sections tr lang) section) then
           name <- add_yml section ;;
           Ok (PyDict.set PyStr.eqb tr lang
                 (PyDict.set pyval_eqb (sections tr lang) section
                    (TranslationLangNs.__init__
                       (os_path.join (os_path.join (localesPath self) lang)
                          name))))
         else Ok tr) ;;
  match PyDict.get pyval_eqb (sections tr lang) section with
  | None => Raise KeyError
  | Some ns =>
      ns' <- TranslationLangNs.addTranslation ns path value overwrite
               keepMarkdown ;;
      Ok (set_translations self
            (PyDict.set PyStr.eqb tr lang
               (PyDict.set pyval_eqb (sections tr lang) section ns')))
  end.

Section Yaml.

Variable yaml_dump : list (pyval * yamlstr) -> pystr.

Fixpoint save_sections (stores : list (pyval * store)) (fs : FS.node)
  : result FS.node :=
  match stores with
  | [] => Ok fs
  | (_, ns) :: stores' =>
      fs' <- TranslationLangNs.save yaml_dump ns fs ;;
      save_sections stores' fs'
  end.

Fixpoint save_langs (tr : list (pystr * list (pyval * store))) (fs : FS.node)
  : result FS.node :=
  match tr with
  | [] => Ok fs
  | (_, stores) :: tr' =>
      fs' <- save_sections stores fs ;;
      save_langs tr' fs'
  end.

Definition save (self : t) (fs : FS.node) : result FS.node :=
  save_langs (translations self) fs.

End Yaml.

End TranslationData.

(** ** class FillLocalesTranslations: the import *)

Module FillLocalesTranslations.

Import TranslationLangNs.

(** A worksheet is the list of its rows, the header row first; a row is
    the tuple of its cell values ([values_only=True]). *)
Definition worksheet : Type := list (list pyval).
Definition workbook : Type := list (pystr * worksheet).

Record task : Type := mkTask {
  inputFile : pystr;
  localesPath : pystr;
  overwrite : bool;
  section : pyval;
  allTranslations : TranslationData.t
}.

Definition __init__ (inputFile localesPath : pystr) (overwrite : bool)
  (section : pyval) : task :=
  {| inputFile := inputFile;
     localesPath := localesPath;
     overwrite := overwrite;
     section := section;
     allTranslations := TranslationData.__init__ localesPath |}.

Definition set_allTranslations (self : task) (a : TranslationData.t) : task :=
  {| inputFile := inputFile self;
     localesPath := localesPath self;
     overwrite := overwrite self;
     section := section self;
     allTranslations := a |}.

(** [lang] and [section] as [loadCurrentTranslations] derives them from
    the path of a file. *)
Definition lang_of (translationFile : pystr) : pystr :=
  let path := os_path.normpath (os_path.dirname translationFile) in
  let paths := PyStr.split path os_path.sep in
  last paths [].

Definition section_of (translationFile : pystr) : pystr :=
  os_path.splitext_root (os_path.basename translationFile).

(** [row[i]] *)
Definition item (row : list pyval) (i : nat) : result pyval :=
  match nth_error row i with
  | Some v => Ok v
  | None => Raise IndexError
  end.

Definition is_not_None (v : pyval) : bool :=
  match v with
  | VNone => false
  | VInt _ | VStr _ | VDate _ => true
  end.

(** The body of the [for row in sheet.iter_rows(...)] loop. *)
Definition addRow (ow : bool) (row : list pyval) (a : TranslationData.t)
  : result TranslationData.t :=
  section <- item row 3 ;;
  path <- item row 4 ;;
  fr <- item row 5 ;;
  en <- item row 6 ;;
  let keepMarkdown := false in
  a <- (if is_not_None fr then
          TranslationData.addTranslation a (str "fr") section path fr ow
            keepMarkdown
        else Ok a) ;;
  if is_not_None en then
    TranslationData.addTranslation a (str "en") section path en ow
      keepMarkdown
  else Ok a.

Fixpoint addRows (ow : bool) (rows : list (list pyval))
  (a : TranslationData.t) : result TranslationData.t :=
  match rows with
  | [] => Ok a
  | row :: rows' =>
      a' <- addRow ow row a ;;
      addRows ow rows' a'
  end.

Section External.

Variable yaml_load : pystr -> result yamlval.
Variable yaml_dump : list (pyval * yamlstr) -> pystr.

(** openpyxl: [load_workbook(inputFile, data_only=True)]. *)
Variable load_workbook : pystr -> result workbook.

(** The [for translationFile in ymlFiles] loop. *)
Fixpoint loadFiles (fs : FS.node) (ymlFiles : list pystr)
  (a : TranslationData.t) : result TranslationData.t :=
  match ymlFiles with
  | [] => Ok a
  | translationFile :: ymlFiles' =>
      let lang := lang_of translationFile in
      let section := section_of translationFile in
      let translationNs := TranslationLangNs.__init__ translationFile in
      translationNs <-
        TranslationLangNs.loadCurrentTranslations yaml_load fs translationNs ;;
      loadFiles fs ymlFiles'
        (TranslationData.addTranslations a lang (VStr section) translationNs)
  end.

Definition loadCurrentTranslations (fs : FS.node) (self : task) : result task :=
  let ymlFiles := FS.glob_yml fs (localesPath self) in
  a <- loadFiles fs ymlFiles (allTranslations self) ;;
  Ok (set_allTranslations self a).

Definition saveAllTranslations (self : task) (fs : FS.node) : result FS.node :=
  TranslationData.save yaml_dump (allTranslations self) fs.

Definition addTranslationsFromExcel (self : task) : result task :=
  workbook <- load_workbook (inputFile self) ;;
  sheet <- match PyDict.get PyStr.eqb workbook (str "Widgets") with
           | Some sh => Ok sh
           | None => Raise KeyError
           end ;;
  a <- addRows (overwrite self) (skipn 1 sheet) (allTranslations self) ;;
  Ok (set_allTranslations self a).

(** [generate_libelles(inputFile, localesPath, overwrite, section)]: the
    file system after a run that raised nothing. *)
Definition generate_libelles (fs : FS.node) (inputFile localesPath : pystr)
  (overwrite : bool) (section : pyval) : result FS.node :=
  let task := __init__ inputFile localesPath overwrite section in
  task <- loadCurrentTranslations fs task ;;
  task <- addTranslationsFromExcel task ;;
  saveAllTranslations task fs.

End External.

End FillLocalesTranslations.

(** ** Definitions used to state the properties *)

Module Notation.

Import ValueReplacer.

(** The arguments of the four [replaceStartEnd] calls of
    [ValueReplacer.replace], in the order of the calls. *)
Definition rules : list (pystr * pystr * pystr) :=
  [ (boldNotation, startBoldHtml, endBoldHtml);
    (obliqueNotation, startOblique, endOblique);
    (greenNotation, startGreen, endGreen);
    (redNotation, startRed, endRed) ].

(** No occurrence of [n] starts inside [p] in the string [p ++ rest]. *)
Fixpoint no_start (n p rest : pystr) : bool :=
  match p with
  | [] => true
  | _ :: p' => negb (startswith (p ++ rest) n) && no_start n p' rest
  end.

(** One of the two strings is a prefix of the other. *)
Definition overlaps (a b : pystr) : bool := startswith a b || startswith b a.

(** No suffix of the tag [t] starts with [n] or is the start of [n]. *)
Fixpoint tag_clean (n t : pystr) : bool :=
  match t with
  | [] => true
  | _ :: t' => negb (overlaps t n) && tag_clean n t'
  end.

(** Inserting the tag [t] next to any text makes no occurrence of [n]:
    its first character is not in [n] and no suffix meets [n]. *)
Definition tag_ok (n t : pystr) : bool :=
  match t with
  | [] => false
  | c :: _ => negb (existsb (N.eqb c) n) && tag_clean n t
  end.

(** Modelled after the words of the specification: one pass from the
    left over the non-overlapping occurrences of the notation, the 1st
    replaced by the start tag, the 2nd by the end tag, the 3rd by the
    start tag, and so on.  [k] is the number of occurrences already
    replaced, [skip] the characters of the current occurrence still to
    drop. *)
Fixpoint alternate_from (notation startTag endTag : pystr) (skip k : nat)
  (s : pystr) : pystr :=
  match s with
  | [] => []
  | c :: t =>
      match skip with
      | S j => alternate_from notation startTag endTag j k t
      | O =>
          if startswith s notation
          then (if Nat.even k then startTag else endTag)
               ++ alternate_from notation startTag endTag
                    (Nat.pred (length notation)) (S k) t
          else c :: alternate_from notation startTag endTag 0 k t
      end
  end.

Definition alternate (notation startTag endTag s : pystr) : pystr :=
  alternate_from notation startTag endTag 0 0 s.

(** A stage of the rewriter in the words of the specification: the
    alternate replacement when the notation occurs an even, positive
    number of times, the string itself otherwise. *)
Definition stage (notation startTag endTag s : pystr) : pystr :=
  if (0 <? count s notation) && Nat.even (count s notation)
  then alternate notation startTag endTag s
  else s.

(** Every line-break character replaced by the markup. *)
Definition breaks (s : pystr) : pystr :=
  flat_map (fun c => if N.eqb c 10 then brHtml else [c]) s.

(** The rewriter in the words of the specification. *)
Definition rewrite (s : pystr) : pystr :=
  stage redNotation startRed endRed
    (stage greenNotation startGreen endGreen
       (stage obliqueNotation startOblique endOblique
          (stage boldNotation startBoldHtml endBoldHtml (breaks s)))).

End Notation.

Module Calls.

(** Modelled after the words of the specification: a cell value that is
    neither null nor the empty string. *)
Definition non_null_non_empty (v : pyval) : bool :=
  match v with
  | VNone => false
  | VStr [] => false
  | VStr (_ :: _) | VInt _ | VDate _ => true
  end.

(** The invocations of [TranslationData.addTranslation] for one row, the
    French one first, when [called] tells for which cell values there is
    one. *)
Definition row_calls (called : pyval -> bool) (ow : bool) (row : list pyval)
  : list TranslationData.call :=
  let section := nth 3 row VNone in
  let path := nth 4 row VNone in
  let fr := nth 5 row VNone in
  let en := nth 6 row VNone in
  (if called fr
   then [TranslationData.mkCall (str "fr") section path fr ow false]
   else [])
  ++ (if called en
      then [TranslationData.mkCall (str "en") section path en ow false]
      else []).

(** The stores of an index: each language with its sections and the file
    of each. *)
Definition stores_of (a : TranslationData.t)
  : list (pystr * list (pyval * pystr)) :=
  map (fun ls : pystr * list (pyval * TranslationLangNs.store) =>
         (fst ls,
          map (fun ss : pyval * TranslationLangNs.store =>
                 (fst ss, TranslationLangNs.file (snd ss)))
            (snd ls)))
    (TranslationData.translations a).

End Calls.

(** ** A small run *)

Module Demo.

Import TranslationLangNs.

(** A locales directory with two languages, a file next to the language
    directories, a hidden file, a file that is no translation file, a
    file the parser refuses, and a file one directory deeper. *)
Definition tree : FS.node :=
  FS.Dir
    [ (str "locales",
       FS.Dir
         [ (str "top.yml", FS.File (str "title: Racine"));
           (str "fr",
            FS.Dir
              [ (str "home.yml", FS.File (str "title: Accueil"));
                (str ".draft.yml", FS.File (str "title: Brouillon"));
                (str "notes.txt", FS.File (str "rien"));
                (str "extra",
                 FS.Dir [ (str "deep.yml", FS.File (str "title: Fond")) ]) ]);
           (str "en", FS.Dir [ (str "home.yml", FS.File (str "title: Home")) ]) ]);
      (str "broken",
       FS.Dir [ (str "fr", FS.Dir [ (str "bad.yml", FS.File (str "title: [")) ]) ]) ].

(** The start of a file whose one key [title] has a folded block scalar
    for value: the indicator [>-], then the text on the next line. *)
Definition folded_title : pystr :=
  str "title: >-" ++ ValueReplacer.newline ++ str "  ".

(** A parser for the files of [tree]: [title: <text>] is a mapping with
    the one key [title], whose value is a plain scalar, or a folded one
    after [>-]; anything else is refused. *)
Definition yaml_load (text : pystr) : result yamlval :=
  if startswith text folded_title then
    Ok (YMap [(VStr (str "title"), YFolded (skipn 12 text))])
  else if startswith text (str "title: ")
     && negb (contains (str "[") text)
  then Ok (YMap [(VStr (str "title"), YScalar (VStr (skipn 7 text)))])
  else Raise YAMLError.

(** A directory whose one file holds a short folded block scalar. *)
Definition folded_tree : FS.node :=
  FS.Dir
    [ (str "locales",
       FS.Dir
         [ (str "fr",
            FS.Dir
              [ (str "home.yml", FS.File (folded_title ++ str "Accueil")) ]) ]) ].

(** A printer that writes one [key: value] line per string key. *)
Definition yaml_dump (d : list (pyval * yamlstr)) : pystr :=
  flat_map
    (fun kv : pyval * yamlstr =>
       match fst kv with
       | VStr k => k ++ str ": " ++ text (snd kv) ++ ValueReplacer.newline
       | VNone | VInt _ | VDate _ => []
       end)
    d.

(** A store that holds the key [title]. *)
Definition home : store :=
  {| modified := false;
     data := [(VStr (str "title"), PlainStr (str "Accueil"))];
     file := str "locales/fr/home.yml";
     startBoldHtml := str "<strong>";
     endBoldHtml := str "</strong>" |}.

(** The worksheet: the header row, then a row whose French cell holds
    the empty string. *)
Definition header_row : list pyval :=
  [VStr (str "a"); VStr (str "b"); VStr (str "c"); VStr (str "section");
   VStr (str "path"); VStr (str "fr"); VStr (str "en")].

Definition empty_fr_row : list pyval :=
  [VNone; VNone; VNone; VStr (str "home"); VStr (str "title"); VStr [];
   VStr (str "Welcome")].

Definition load_workbook (inputFile : pystr)
  : result FillLocalesTranslations.workbook :=
  Ok [(str "Widgets", [header_row; empty_fr_row])].

(** The task of a run over [tree] that does not overwrite. *)
Definition task : FillLocalesTranslations.task :=
  FillLocalesTranslations.__init__ (str "widgets.xlsx") (str "locales") false
    VNone.

End Demo.

(** ** Looking into an index *)

Module Index.

Import TranslationLangNs.

(** The stored form of the string [s]. *)
Definition styled (s : pystr) : yamlstr :=
  if contains ValueReplacer.newline s || (76 <? length s)
  then FoldedScalarString s else PlainStr s.

(** [self.translations[lang][section]], when both keys are there. *)
Definition find_store (a : TranslationData.t) (lang : pystr) (section : pyval)
  : option store :=
  PyDict.get pyval_eqb
    (TranslationData.sections (TranslationData.translations a) lang) section.

(** The index has a store for the language and section, and the store has
    the path. *)
Definition present (a : TranslationData.t) (lang : pystr)
  (section path : pyval) : bool :=
  match find_store a lang section with
  | Some ns => PyDict.mem pyval_eqb (data ns) path
  | None => false
  end.

(** A row of seven cells or more whose French and English cells are each
    [None] or address a path the index already has. *)
Definition covered (a : TranslationData.t) (row : list pyval) : bool :=
  (7 <=? length row)
  && (negb (FillLocalesTranslations.is_not_None (nth 5 row VNone))
      || present a (str "fr") (nth 3 row VNone) (nth 4 row VNone))
  && (negb (FillLocalesTranslations.is_not_None (nth 6 row VNone))
      || present a (str "en") (nth 3 row VNone) (nth 4 row VNone)).

(** A value [stringToYaml] takes: any but [None], a number and a date. *)
Definition takes (v : yamlval) : bool :=
  match v with
  | YScalar (VNone | VInt _ | VDate _) => false
  | YScalar (VStr _) | YFolded _ | YLiteral _ | YSeq _ | YMap _ => true
  end.

(** A loadable document: a mapping in which every key has a value
    [stringToYaml] takes, an empty sequence or an empty string. *)
Definition loadable (doc : yamlval) : bool :=
  match doc with
  | YMap items =>
      forallb
        (fun k => match PyDict.get pyval_eqb items k with
                  | Some v => takes v
                  | None => false
                  end)
        (PyDict.keys items)
  | YSeq items =>
      match items with
      | [] => true
      | _ :: _ => false
      end
  | YScalar (VStr s) | YFolded s | YLiteral s =>
      match s with
      | [] => true
      | _ :: _ => false
      end
  | YScalar (VNone | VInt _ | VDate _) => false
  end.

(** No store of the index is marked modified. *)
Definition unmodified (a : TranslationData.t) : bool :=
  forallb
    (fun ls : pystr * list (pyval * store) =>
       forallb (fun ss : pyval * store => negb (modified (snd ss))) (snd ls))
    (TranslationData.translations a).

End Index.

(** ** Well-formed trees *)

Module Names.

(** An entry name of a directory: not empty, without separator. *)
Definition is_name (name : pystr) : bool :=
  negb (PyStr.eqb name []) && forallb (fun c => negb (N.eqb c os_path.sep)) name.

(** Every entry of every directory of the tree has an entry name. *)
Fixpoint well_named (n : FS.node) : bool :=
  match n with
  | FS.File _ => true
  | FS.Dir es =>
      forallb (fun e : pystr * FS.node =>
                 is_name (fst e) && well_named (snd e)) es
  end.

(** A string without separator. *)
Definition nosep (d : pystr) : Prop := Forall (fun c => c <> os_path.sep) d.

(** A string that is empty or ends with a separator. *)
Definition opens (w : pystr) : Prop :=
  w = [] \/ exists w', w = w' ++ [os_path.sep].

End Names.

(** * Properties *)

(** ** Prefixes and occurrences *)

Arguments startswith : simpl nomatch.
Unset Implicit Arguments.

Section Occurrences.

Import Notation.

Lemma startswith_nil (s : pystr) : startswith s [] = true.
Proof. destruct s; reflexivity. Qed.

Lemma startswith_app (p r : pystr) : startswith (p ++ r) p = true.
Proof.
  induction p as [|a p IH]; simpl.
  - apply startswith_nil.
  - now rewrite N.eqb_refl.
Qed.

Lemma startswith_split (s p : pystr) :
  startswith s p = true -> s = p ++ skipn (length p) s.
Proof.
  revert s; induction p as [|a p IH]; intros s H.
  - reflexivity.
  - destruct s as [|b s]; simpl in H; [discriminate|].
    apply andb_true_iff in H as [Hab Hs].
    apply N.eqb_eq in Hab; subst b.
    simpl. f_equal. now apply IH.
Qed.

Lemma startswith_weaken (u w n : pystr) :
  startswith u n = true -> startswith (u ++ w) n = true.
Proof.
  revert u; induction n as [|a n IH]; intros u H.
  - apply startswith_nil.
  - destruct u as [|b u]; simpl in *; [discriminate|].
    apply andb_true_iff in H as [Hab Hs].
    rewrite Hab; simpl. now apply IH.
Qed.

(** A match that begins in [u] and runs into [w] has [u] as a prefix. *)
Lemma startswith_app_cases (u w n : pystr) :
  startswith (u ++ w) n = true ->
  startswith u n = true \/ startswith n u = true.
Proof.
  revert n; induction u as [|c u IH]; intros n H.
  - right. apply startswith_nil.
  - destruct n as [|a n]; [left; reflexivity|].
    simpl in *. apply andb_true_iff in H as [Hac Hs].
    apply N.eqb_eq in Hac; subst c.
    rewrite !N.eqb_refl; simpl.
    now apply IH.
Qed.

(** A match cannot run over a character that the pattern does not have. *)
Lemma startswith_stop (u w n : pystr) (c : N) :
  existsb (N.eqb c) n = false ->
  startswith (u ++ c :: w) n = true -> startswith u n = true.
Proof.
  revert n; induction u as [|b u IH]; intros n Hc H.
  - destruct n as [|a n]; [reflexivity|].
    simpl in *. apply orb_false_iff in Hc as [Hca _].
    apply andb_true_iff in H as [Hac _].
    apply N.eqb_eq in Hac; subst a. now rewrite N.eqb_refl in Hca.
  - destruct n as [|a n]; [reflexivity|].
    simpl in *. apply orb_false_iff in Hc as [_ Hc].
    apply andb_true_iff in H as [Hab Hs].
    rewrite Hab; simpl. now apply IH.
Qed.

Lemma no_start_app (n p q r : pystr) :
  no_start n (p ++ q) r = no_start n p (q ++ r) && no_start n q r.
Proof.
  induction p as [|c p IH]; simpl.
  - reflexivity.
  - now rewrite IH, <- app_assoc, andb_assoc.
Qed.

(** The text before a replaced occurrence stays free of matches when the
    occurrence gives way to a text that starts with a foreign character. *)
Lemma no_start_stop (n x y w : pystr) (c : N) :
  existsb (N.eqb c) n = false ->
  no_start n x (n ++ y) = true ->
  no_start n x (c :: w) = true.
Proof.
  intros Hc; induction x as [|a x IH]; simpl; intros H; [reflexivity|].
  apply andb_true_iff in H as [H1 H2].
  rewrite IH by assumption. rewrite andb_true_r.
  apply negb_true_iff in H1. apply negb_true_iff.
  destruct (startswith (a :: x ++ c :: w) n) eqn:E; [|reflexivity].
  apply (startswith_stop (a :: x) w n c Hc) in E.
  apply (startswith_weaken (a :: x) (n ++ y)) in E.
  simpl in E, H1. congruence.
Qed.

Lemma tag_clean_no_start (n t y : pystr) :
  tag_clean n t = true -> no_start n t y = true.
Proof.
  induction t as [|c t IH]; simpl; intros H; [reflexivity|].
  apply andb_true_iff in H as [H1 H2].
  rewrite IH by assumption. rewrite andb_true_r.
  apply negb_true_iff in H1. apply negb_true_iff.
  destruct (startswith (c :: t ++ y) n) eqn:E; [|reflexivity].
  apply (startswith_app_cases (c :: t) y n) in E.
  unfold overlaps in H1. apply orb_false_iff in H1 as [Ha Hb].
  destruct E; congruence.
Qed.

(** Replacing the first occurrence by a well-formed tag leaves no match
    up to the end of the tag, whatever follows. *)
Lemma no_start_replaced_any (n t x y y' : pystr) :
  tag_ok n t = true ->
  no_start n x (n ++ y) = true ->
  no_start n (x ++ t) y' = true.
Proof.
  intros Ht Hx. rewrite no_start_app.
  destruct t as [|c t]; [discriminate|].
  unfold tag_ok in Ht. apply andb_true_iff in Ht as [Hc Hcl].
  apply negb_true_iff in Hc.
  change ((c :: t) ++ y') with (c :: (t ++ y')).
  rewrite (no_start_stop n x y (t ++ y') c Hc Hx).
  now rewrite (tag_clean_no_start n (c :: t) y' Hcl).
Qed.

Lemma no_start_replaced (n t x y : pystr) :
  tag_ok n t = true ->
  no_start n x (n ++ y) = true ->
  no_start n (x ++ t) y = true.
Proof. apply no_start_replaced_any. Qed.

End Occurrences.

(** ** Scanning past a prefix without matches *)

Section Scanning.

Import Notation.

Lemma count_from_skip (n : pystr) (k : nat) (s : pystr) :
  count_from n k s = count_from n 0 (skipn k s).
Proof.
  revert k; induction s as [|c s IH]; intros k.
  - now destruct k.
  - destruct k as [|k]; [reflexivity|]. simpl. apply IH.
Qed.

Lemma alternate_from_skip (n : pystr) (st et : pystr) (j k : nat) (s : pystr) :
  alternate_from n st et j k s = alternate_from n st et 0 k (skipn j s).
Proof.
  revert j; induction s as [|c s IH]; intros j.
  - now destruct j.
  - destruct j as [|j]; [reflexivity|]. simpl. apply IH.
Qed.

Lemma contains_prefix (n : pystr) (p rest : pystr) :
  no_start n p rest = true -> contains n (p ++ rest) = contains n rest.
Proof.
  induction p as [|c p IH]; intros H; [reflexivity|].
  simpl in H. apply andb_true_iff in H as [H1 H2].
  apply negb_true_iff in H1.
  change (contains n ((c :: p) ++ rest))
    with (startswith ((c :: p) ++ rest) n || contains n (p ++ rest)).
  simpl app. rewrite H1. simpl. now apply IH.
Qed.

Lemma count_prefix (n : pystr) (p rest : pystr) :
  no_start n p rest = true -> count (p ++ rest) n = count rest n.
Proof.
  unfold count.
  induction p as [|c p IH]; intros H; [reflexivity|].
  simpl in H. apply andb_true_iff in H as [H1 H2].
  apply negb_true_iff in H1.
  simpl. rewrite H1. now apply IH.
Qed.

Lemma replace1_prefix (n : pystr) (p rest t : pystr) :
  no_start n p rest = true ->
  replace1 (p ++ rest) n t = p ++ replace1 rest n t.
Proof.
  induction p as [|c p IH]; intros H; [reflexivity|].
  simpl in H. apply andb_true_iff in H as [H1 H2].
  apply negb_true_iff in H1.
  simpl. rewrite H1. f_equal. now apply IH.
Qed.

Lemma alternate_prefix (n : pystr) (st et : pystr) (k : nat) (p rest : pystr) :
  no_start n p rest = true ->
  alternate_from n st et 0 k (p ++ rest)
  = p ++ alternate_from n st et 0 k rest.
Proof.
  induction p as [|c p IH]; intros H; [reflexivity|].
  simpl in H. apply andb_true_iff in H as [H1 H2].
  apply negb_true_iff in H1.
  simpl. rewrite H1. f_equal. now apply IH.
Qed.

(** The leftmost occurrence cuts the string in two. *)
Lemma contains_split (n : pystr) (s : pystr) :
  contains n s = true ->
  exists x y, s = x ++ n ++ y /\ no_start n x (n ++ y) = true.
Proof.
  induction s as [|c s IH]; intros H.
  - simpl in H. rewrite orb_false_r in H.
    exists [], []. split; [|reflexivity].
    destruct n; [reflexivity|discriminate].
  - change (contains n (c :: s))
      with (startswith (c :: s) n || contains n s) in H.
    destruct (startswith (c :: s) n) eqn:E.
    + exists [], (skipn (length n) (c :: s)). split; [|reflexivity].
      now apply startswith_split.
    + simpl in H. destruct (IH H) as (x & y & -> & Hx).
      exists (c :: x), y. split; [reflexivity|].
      simpl. simpl in E. now rewrite E, Hx.
Qed.

Lemma contains_none (n : pystr) (st et : pystr) (k : nat) (s : pystr) :
  contains n s = false -> alternate_from n st et 0 k s = s.
Proof.
  induction s as [|c s IH]; intros H; [reflexivity|].
  change (contains n (c :: s))
    with (startswith (c :: s) n || contains n s) in H.
  apply orb_false_iff in H as [H1 H2].
  simpl. rewrite H1. f_equal. now apply IH.
Qed.

Lemma count_none (n : pystr) (s : pystr) :
  n <> [] -> contains n s = false -> count s n = 0.
Proof.
  intros Hn. unfold count.
  induction s as [|c s IH]; intros H.
  - destruct n; [contradiction|reflexivity].
  - change (contains n (c :: s))
      with (startswith (c :: s) n || contains n s) in H.
    apply orb_false_iff in H as [H1 H2].
    simpl. rewrite H1. now apply IH.
Qed.

Lemma count_head (n y : pystr) :
  n <> [] -> count (n ++ y) n = S (count y n).
Proof.
  intros Hn. unfold count. destruct n as [|a m]; [contradiction|].
  change ((a :: m) ++ y) with (a :: (m ++ y)).
  cbn [count_from].
  change (a :: m ++ y) with ((a :: m) ++ y).
  rewrite startswith_app. f_equal.
  rewrite count_from_skip. cbn [length Nat.pred].
  now rewrite skipn_app, skipn_all, Nat.sub_diag.
Qed.

Lemma replace1_head (n y t : pystr) :
  n <> [] -> replace1 (n ++ y) n t = t ++ y.
Proof.
  intros Hn. destruct n as [|a m]; [contradiction|].
  change ((a :: m) ++ y) with (a :: (m ++ y)).
  cbn [replace1].
  change (a :: m ++ y) with ((a :: m) ++ y).
  rewrite startswith_app. f_equal.
  now rewrite skipn_app, skipn_all, Nat.sub_diag.
Qed.

Lemma alternate_head (n : pystr) (st et : pystr) (k : nat) (y : pystr) :
  n <> [] ->
  alternate_from n st et 0 k (n ++ y)
  = (if Nat.even k then st else et) ++ alternate_from n st et 0 (S k) y.
Proof.
  intros Hn. destruct n as [|a m]; [contradiction|].
  change ((a :: m) ++ y) with (a :: (m ++ y)).
  cbn [alternate_from].
  change (a :: m ++ y) with ((a :: m) ++ y).
  rewrite startswith_app. f_equal.
  rewrite alternate_from_skip. cbn [length Nat.pred].
  now rewrite skipn_app, skipn_all, Nat.sub_diag.
Qed.

(** [in] and [count] agree on whether there is an occurrence. *)
Lemma contains_count (n : pystr) (s : pystr) :
  n <> [] -> contains n s = (0 <? count s n).
Proof.
  intros Hn. destruct (contains n s) eqn:E.
  - destruct (contains_split n s E) as (x & y & -> & Hx).
    now rewrite (count_prefix n _ _ Hx), (count_head n y Hn).
  - now rewrite (count_none n s Hn E).
Qed.

End Scanning.

(** ** The replacement loop *)

Lemma count_le_length (n : pystr) :
  n <> [] -> forall s : pystr, count s n <= length s.
Proof.
  intros Hn s. unfold count. generalize 0 as k.
  induction s as [|c s IH]; intros k; simpl.
  - destruct n; [contradiction|lia].
  - destruct k as [|k]; [|specialize (IH k); lia].
    destruct (startswith (c :: s) n).
    + specialize (IH (Nat.pred (length n))); lia.
    + specialize (IH 0); lia.
Qed.

Section Loop.

Import Notation ValueReplacer.

Variables n st et : pystr.
Hypothesis n_not_empty : n <> [].
Hypothesis st_ok : tag_ok n st = true.
Hypothesis et_ok : tag_ok n et = true.

(** One replacement removes exactly one occurrence. *)
Lemma count_replace1 (s t : pystr) :
  tag_ok n t = true -> contains n s = true ->
  S (count (replace1 s n t) n) = count s n.
Proof.
  intros Ht Hs.
  destruct (contains_split n s Hs) as (x & y & -> & Hx).
  rewrite (replace1_prefix n x (n ++ y) t Hx).
  rewrite (replace1_head n y t n_not_empty).
  rewrite (count_prefix n x (n ++ y) Hx), (count_head n y n_not_empty).
  rewrite app_assoc.
  now rewrite (count_prefix n (x ++ t) y (no_start_replaced n t x y Ht Hx)).
Qed.

(** With more tests allowed than there are occurrences, the loop ends,
    and what it has built is the alternate replacement. *)
Lemma replaceLoop_alternate (fuel : nat) :
  forall (p y : pystr) (k : nat),
    no_start n p y = true -> count y n < fuel ->
    replaceLoop fuel n st et (p ++ y) k
    = Ok (p ++ alternate_from n st et 0 k y).
Proof.
  induction fuel as [|fuel IH]; intros p y k Hp Hc; [lia|].
  cbn [replaceLoop]. rewrite (contains_prefix n p y Hp).
  destruct (contains n y) eqn:E.
  - destruct (contains_split n y E) as (x & y' & -> & Hx).
    set (tag := if Nat.even k then st else et).
    assert (Htag : tag_ok n tag = true) by (unfold tag; now destruct (Nat.even k)).
    assert (Hpx : no_start n (p ++ x) (n ++ y') = true).
    { rewrite no_start_app. now rewrite Hp, Hx. }
    rewrite (app_assoc p x (n ++ y')).
    rewrite (replace1_prefix n (p ++ x) (n ++ y') tag Hpx).
    rewrite (replace1_head n y' tag n_not_empty).
    rewrite (app_assoc (p ++ x) tag y').
    rewrite IH.
    + rewrite (alternate_prefix n st et k x (n ++ y') Hx).
      rewrite (alternate_head n st et k y' n_not_empty).
      fold tag. now rewrite <- !app_assoc.
    + now apply no_start_replaced.
    + rewrite (count_prefix n x (n ++ y') Hx) in Hc.
      rewrite (count_head n y' n_not_empty) in Hc. lia.
  - now rewrite (contains_none n st et k y E).
Qed.

(** A call of [replaceStartEnd] is a stage of the specification. *)
Lemma replaceStartEnd_stage (fuel : nat) (s : pystr) :
  count s n < fuel ->
  replaceStartEnd fuel s n st et = Ok (stage n st et s).
Proof.
  intros Hf. unfold replaceStartEnd, stage.
  rewrite (contains_count n s n_not_empty).
  destruct ((0 <? count s n) && Nat.even (count s n)); [|reflexivity].
  apply (replaceLoop_alternate fuel [] s 0); [reflexivity|assumption].
Qed.

End Loop.

Lemma replace_newline_breaks (s : pystr) :
  PyStr.replace s ValueReplacer.newline ValueReplacer.brHtml
  = Notation.breaks s.
Proof.
  unfold PyStr.replace, ValueReplacer.newline, Notation.breaks.
  induction s as [|c s IH]; [reflexivity|].
  cbn [replace_from flat_map length Nat.pred].
  rewrite <- IH.
  unfold startswith; fold startswith.
  rewrite startswith_nil, andb_true_r, N.eqb_sym.
  now destruct (N.eqb c 10).
Qed.

Lemma rules_ok :
  forall n st et, In (n, st, et) Notation.rules ->
    n <> [] /\ Notation.tag_ok n st = true /\ Notation.tag_ok n et = true.
Proof.
  intros n st et H.
  repeat (destruct H as [H|H];
          [injection H as <- <- <-;
           split; [discriminate|split; vm_compute; reflexivity]|]).
  destruct H.
Qed.

Lemma replace_rewrite (s : pystr) :
  ValueReplacer.replace s = Ok (Notation.rewrite s).
Proof.
  unfold ValueReplacer.replace, Notation.rewrite.
  rewrite replace_newline_breaks.
  assert (step : forall n st et x, In (n, st, et) Notation.rules ->
            ValueReplacer.replaceStartEnd (S (length x)) x n st et
            = Ok (Notation.stage n st et x)).
  { intros n st et x Hin.
    destruct (rules_ok n st et Hin) as (Hn & Hs & He).
    apply replaceStartEnd_stage; try assumption.
    pose proof (count_le_length n Hn x). lia. }
  rewrite step by (simpl; auto). cbn [bind].
  rewrite step by (simpl; auto). cbn [bind].
  rewrite step by (simpl; auto). cbn [bind].
  rewrite step by (simpl; auto 6). reflexivity.
Qed.

(** After the alternate replacement no occurrence is left. *)
Lemma alternate_clean (n st et : pystr) :
  n <> [] -> Notation.tag_ok n st = true -> Notation.tag_ok n et = true ->
  forall (m : nat) (s : pystr) (k : nat),
    length s <= m ->
    contains n (Notation.alternate_from n st et 0 k s) = false.
Proof.
  intros Hn Hs He.
  induction m as [|m IH]; intros s k Hm.
  - destruct s; [|simpl in Hm; lia]. simpl.
    destruct n; [contradiction|reflexivity].
  - destruct (contains n s) eqn:E.
    + destruct (contains_split n s E) as (x & y & -> & Hx).
      rewrite (alternate_prefix n st et k x (n ++ y) Hx).
      rewrite (alternate_head n st et k y Hn).
      set (tag := if Nat.even k then st else et).
      assert (Htag : Notation.tag_ok n tag = true)
        by (unfold tag; now destruct (Nat.even k)).
      rewrite app_assoc.
      rewrite (contains_prefix n (x ++ tag) _
                 (no_start_replaced_any n tag x y _ Htag Hx)).
      apply IH. rewrite !length_app in Hm.
      destruct n; [contradiction|]. simpl in Hm. lia.
    + now rewrite (contains_none n st et k s E).
Qed.

(** [str.replace] is the alternate replacement with one tag. *)
Lemma replace_from_alternate (n t : pystr) (s : pystr) :
  forall skip k : nat,
    replace_from n t skip s = Notation.alternate_from n t t skip k s.
Proof.
  induction s as [|c s IH]; intros skip k; [reflexivity|].
  cbn [replace_from Notation.alternate_from].
  destruct skip as [|j]; [|apply IH].
  destruct (startswith (c :: s) n).
  - rewrite (IH _ (S k)). now destruct (Nat.even k).
  - now rewrite (IH 0 k).
Qed.

Lemma replace_clean (n t s : pystr) :
  n <> [] -> Notation.tag_ok n t = true ->
  contains n (PyStr.replace s n t) = false.
Proof.
  intros Hn Ht. unfold PyStr.replace.
  destruct n as [|a n'] eqn:En; [contradiction|]. rewrite <- En in *.
  rewrite (replace_from_alternate n t s 0 0).
  now apply (alternate_clean n t t Hn Ht Ht (length s)).
Qed.

(** ** The notation rewriter *)

(** C3. A notation that occurs an odd number of times in the string a
    stage receives is left as it is: [replaceStartEnd] returns its input
    unchanged, whatever the notation and its tags, hence for each of the
    four notations at its point of the pipeline of
    [ValueReplacer.replace]. *)
Theorem odd_count_left_unchanged (fuel : nat) (s n st et : pystr) :
  Nat.odd (count s n) = true ->
  ValueReplacer.replaceStartEnd fuel s n st et = Ok s.
Proof.
  intros H. unfold ValueReplacer.replaceStartEnd.
  rewrite <- Nat.negb_odd, H. simpl.
  now rewrite andb_false_r.
Qed.

Lemma odd_count_left_unchanged_witness :
  Nat.odd (count (str "**a") ValueReplacer.boldNotation) = true
  /\ ValueReplacer.replaceStartEnd 4 (str "**a") ValueReplacer.boldNotation
       ValueReplacer.startBoldHtml ValueReplacer.endBoldHtml
     = Ok (str "**a").
Proof.
  split; [reflexivity|].
  apply (odd_count_left_unchanged 4 (str "**a")). reflexivity.
Defined.

(** C4. [ValueReplacer.replace] is the rewriter of the specification:
    every line break becomes the markup, then the stages for bold,
    oblique, green and red run in that order, each on the string the
    previous one produced, and a stage whose notation occurs an even,
    positive number of times replaces the occurrences alternately by the
    start and the end tag from the left.  The two examples of the
    specification hold. *)
Theorem replace_is_rewrite :
  (forall s : pystr, ValueReplacer.replace s = Ok (Notation.rewrite s))
  /\ ValueReplacer.replace (str "a" ++ ValueReplacer.newline ++ str "b")
     = Ok (str "a<br />b")
  /\ ValueReplacer.replace (str "**bold**") = Ok (str "<strong>bold</strong>").
Proof.
  split; [exact replace_rewrite|]. split; reflexivity.
Qed.

(** C10. For each of the four notation rules: neither tag contains the
    notation, one replacement of the first occurrence by either tag
    lowers the number of occurrences, the loop of [replaceStartEnd] ends
    as soon as it may test its condition more often than there are
    occurrences, and so does [replaceStartEnd]; the rewriter returns a
    string for every input. *)
Theorem rewriter_terminates :
  (forall n st et : pystr, In (n, st, et) Notation.rules ->
     (contains n st = false /\ contains n et = false)
     /\ (forall s tag : pystr, tag = st \/ tag = et ->
           contains n s = true ->
           count (replace1 s n tag) n < count s n)
     /\ (forall (s : pystr) (k : nat), exists r : pystr,
           forall fuel : nat, count s n < fuel ->
             ValueReplacer.replaceLoop fuel n st et s k = Ok r)
     /\ (forall s : pystr, exists r : pystr,
           forall fuel : nat, count s n < fuel ->
             ValueReplacer.replaceStartEnd fuel s n st et = Ok r))
  /\ (forall s : pystr, exists r : pystr, ValueReplacer.replace s = Ok r).
Proof.
  split.
  - intros n st et Hin.
    destruct (rules_ok n st et Hin) as (Hn & Hs & He).
    split; [|split; [|split]].
    + repeat (destruct Hin as [Hin|Hin];
              [injection Hin as <- <- <-; split; vm_compute; reflexivity|]).
      destruct Hin.
    + intros s tag Htag Hc.
      assert (Hok : Notation.tag_ok n tag = true) by (destruct Htag; now subst).
      pose proof (count_replace1 n Hn s tag Hok Hc). lia.
    + intros s k. eexists. intros fuel Hf.
      apply (replaceLoop_alternate n st et Hn Hs He fuel [] s k);
        [reflexivity|assumption].
    + intros s. eexists. intros fuel Hf.
      now apply replaceStartEnd_stage.
  - intros s. eexists. apply replace_rewrite.
Qed.

Lemma rewriter_terminates_witness :
  count (replace1 (str "**a**") ValueReplacer.boldNotation
           ValueReplacer.startBoldHtml) ValueReplacer.boldNotation
  < count (str "**a**") ValueReplacer.boldNotation.
Proof.
  refine (proj1 (proj2 (proj1 rewriter_terminates
            ValueReplacer.boldNotation ValueReplacer.startBoldHtml
            ValueReplacer.endBoldHtml _)) (str "**a**")
            ValueReplacer.startBoldHtml _ _).
  - simpl. left. reflexivity.
  - left. reflexivity.
  - reflexivity.
Defined.

(** ** Dictionaries *)

Lemma pystr_eqb_eq (a b : pystr) : PyStr.eqb a b = true <-> a = b.
Proof.
  revert b; induction a as [|x a IH]; intros [|y b]; simpl;
    try (split; [discriminate|discriminate]); [tauto|].
  rewrite andb_true_iff, N.eqb_eq, IH.
  split; [intros [-> ->]; reflexivity|intros [= -> ->]; auto].
Qed.

Lemma pyval_eqb_eq (a b : pyval) : pyval_eqb a b = true <-> a = b.
Proof.
  destruct a, b; simpl; try (split; [discriminate|discriminate]).
  - tauto.
  - rewrite Z.eqb_eq. split; [now intros ->|now intros [= ->]].
  - rewrite pystr_eqb_eq. split; [now intros ->|now intros [= ->]].
  - rewrite Z.eqb_eq. split; [now intros ->|now intros [= ->]].
Qed.

Lemma pyval_eqb_refl (a : pyval) : pyval_eqb a a = true.
Proof. now apply pyval_eqb_eq. Qed.

Section DictLemmas.

Variables K V : Type.
Variable keq : K -> K -> bool.
Hypothesis keq_eq : forall a b, keq a b = true <-> a = b.

Lemma get_set_same (d : list (K * V)) (k : K) (v : V) :
  PyDict.get keq (PyDict.set keq d k v) k = Some v.
Proof.
  induction d as [|[k' v'] d IH]; simpl.
  - now rewrite (proj2 (keq_eq k k) eq_refl).
  - destruct (keq k' k) eqn:E; simpl; rewrite E; [reflexivity|exact IH].
Qed.

Lemma get_set_other (d : list (K * V)) (k q : K) (v : V) :
  k <> q ->
  PyDict.get keq (PyDict.set keq d k v) q = PyDict.get keq d q.
Proof.
  intros Hkq.
  assert (Hf : keq k q = false).
  { destruct (keq k q) eqn:E; [|reflexivity]. now apply keq_eq in E. }
  induction d as [|[k' v'] d IH]; simpl.
  - now rewrite Hf.
  - destruct (keq k' k) eqn:E; simpl.
    + apply keq_eq in E; subst k'. now rewrite Hf.
    + now rewrite IH.
Qed.

End DictLemmas.

(** ** Stores *)

Section Stores.

Import TranslationLangNs.

Lemma stringToYaml_str (s : pystr) :
  stringToYaml (VStr s)
  = Ok (if contains ValueReplacer.newline s || (76 <? length s)
        then FoldedScalarString s else PlainStr s).
Proof.
  unfold stringToYaml.
  now destruct (contains ValueReplacer.newline s), (76 <? length s).
Qed.

(** The string [addTranslation] stores for the string [s]. *)
Lemma addTranslation_stored (self : store) (path : pyval) (s : pystr)
  (keepMarkdown : bool) :
  exists y : yamlstr,
    stringToYaml
      (VStr (if keepMarkdown then PyStr.replace s nom nickname
             else Notation.rewrite (PyStr.replace s nom nickname))) = Ok y
    /\ addTranslation self path (VStr s) true keepMarkdown
       = Ok (set_modified
               (set_data self (PyDict.set pyval_eqb (data self) path y)) true).
Proof.
  unfold addTranslation. cbn [negb andb bind].
  destruct keepMarkdown; cbn [negb].
  - cbn [bind]. rewrite stringToYaml_str. cbn [bind].
    eexists. split; reflexivity.
  - rewrite replace_rewrite. cbn [bind].
    rewrite stringToYaml_str. cbn [bind].
    eexists. split; reflexivity.
Qed.

(** C5. On a path the store already has, [addTranslation] without
    [overwrite] returns the store as it was, data and modified flag
    alike; with [overwrite] and a string value it puts the new value at
    the path, keeps every other path, and sets the modified flag. *)
Theorem addTranslation_existing_path (self : store) (path value : pyval)
  (keepMarkdown : bool) :
  PyDict.mem pyval_eqb (data self) path = true ->
  addTranslation self path value false keepMarkdown = Ok self
  /\ (forall s : pystr, value = VStr s ->
        exists (self' : store) (y : yamlstr),
          addTranslation self path value true keepMarkdown = Ok self'
          /\ stringToYaml
               (VStr (if keepMarkdown then PyStr.replace s nom nickname
                      else Notation.rewrite (PyStr.replace s nom nickname)))
             = Ok y
          /\ PyDict.get pyval_eqb (data self') path = Some y
          /\ (forall q : pyval, path <> q ->
                PyDict.get pyval_eqb (data self') q
                = PyDict.get pyval_eqb (data self) q)
          /\ modified self' = true
          /\ file self' = file self).
Proof.
  intros Hmem. split.
  - unfold addTranslation. now rewrite Hmem.
  - intros s ->.
    destruct (addTranslation_stored self path s keepMarkdown) as (y & Hy & Ha).
    eexists. exists y. split; [exact Ha|]. split; [exact Hy|].
    cbn [data set_modified set_data modified file].
    split; [apply (get_set_same pyval yamlstr pyval_eqb pyval_eqb_eq)|].
    split; [|split; reflexivity].
    intros q Hq. now apply (get_set_other pyval yamlstr pyval_eqb pyval_eqb_eq).
Qed.

Lemma addTranslation_existing_path_witness :
  addTranslation Demo.home (VStr (str "title")) (VStr (str "Bienvenue"))
    false false = Ok Demo.home.
Proof.
  apply (proj1 (addTranslation_existing_path Demo.home (VStr (str "title"))
                  (VStr (str "Bienvenue")) false eq_refl)).
Defined.

(** What [stringToYaml] returns for a plain string has the style its
    characters call for. *)
Lemma stringToYaml_text (s : pystr) (y : yamlstr) :
  stringToYaml (VStr s) = Ok y -> stringToYaml (VStr (text y)) = Ok y.
Proof.
  rewrite stringToYaml_str. intros [= <-].
  destruct (contains ValueReplacer.newline s || (76 <? length s)) eqn:E;
    cbn [text]; rewrite stringToYaml_str, E; reflexivity.
Qed.

Lemma loadCurrentTranslations_inv
  (yaml_load : pystr -> result yamlval)
  (fs : FS.node) (self self' : store) :
  loadCurrentTranslations yaml_load fs self = Ok self' ->
  exists stream td d,
    FS.read fs (file self) = Ok stream
    /\ yaml_load stream = Ok td
    /\ loadDocument td = Ok d
    /\ self' = set_data self d.
Proof.
  unfold loadCurrentTranslations. intros H.
  destruct (FS.read fs (file self)) as [stream| |] eqn:Er; try discriminate.
  cbn [bind] in H.
  destruct (yaml_load stream) as [td| |] eqn:Ey; try discriminate.
  cbn [bind] in H.
  destruct (loadDocument td) as [d| |] eqn:El;
    try discriminate.
  cbn [bind except_reraise] in H. injection H as <-.
  now exists stream, td, d.
Qed.

(** C7. A store that was created and loaded, and nothing else, is not
    modified, and [save] leaves the file system as it is: it writes
    nothing. *)
Theorem loaded_store_not_written
  (yaml_load : pystr -> result yamlval)
  (yaml_dump : list (pyval * yamlstr) -> pystr)
  (fs : FS.node) (inputFile : pystr) (self' : store) :
  loadCurrentTranslations yaml_load fs (__init__ inputFile) = Ok self' ->
  modified self' = false /\ save yaml_dump self' fs = Ok fs.
Proof.
  intros H.
  destruct (loadCurrentTranslations_inv yaml_load fs _ self' H)
    as (stream & td & d & _ & _ & _ & ->).
  split; reflexivity.
Qed.

Lemma loaded_store_not_written_witness :
  save Demo.yaml_dump
    (set_data (__init__ (str "locales/fr/home.yml"))
       [(VStr (str "title"), PlainStr (str "Accueil"))]) Demo.tree
  = Ok Demo.tree.
Proof.
  apply (loaded_store_not_written Demo.yaml_load Demo.yaml_dump Demo.tree
           (str "locales/fr/home.yml")). reflexivity.
Defined.

(** C9. When the file of a store is there and the parser raises on its
    text, [loadCurrentTranslations] raises, and the message of the
    exception is the fixed text followed by the path of the file. *)
Theorem load_error_names_file
  (yaml_load : pystr -> result yamlval)
  (fs : FS.node) (self : store) (stream : pystr) (e : exn) :
  FS.read fs (file self) = Ok stream ->
  yaml_load stream = Raise e ->
  loadCurrentTranslations yaml_load fs self
  = Raise (Exception (str "Error loading translation yaml file " ++ file self)).
Proof.
  intros Hr Hy. unfold loadCurrentTranslations.
  rewrite Hr. cbn [bind]. rewrite Hy. reflexivity.
Qed.

Lemma load_error_names_file_witness :
  loadCurrentTranslations Demo.yaml_load Demo.tree
    (__init__ (str "broken/fr/bad.yml"))
  = Raise (Exception (str "Error loading translation yaml file broken/fr/bad.yml")).
Proof.
  apply (load_error_names_file Demo.yaml_load Demo.tree
           (__init__ (str "broken/fr/bad.yml")) (str "title: [") YAMLError);
    reflexivity.
Defined.

Lemma stringToYaml_str_text (s : pystr) (y : yamlstr) :
  stringToYaml (VStr s) = Ok y -> text y = s.
Proof.
  rewrite stringToYaml_str. intros [= <-].
  now destruct (contains ValueReplacer.newline s || (76 <? length s)).
Qed.

(** C8. With [overwrite], [addTranslation] puts [{{nickname}}] in the
    place of every [[nom]] of the value.  With [keepMarkdown] it stores
    the result as it is, so [Bonjour [nom]] is stored as
    [Bonjour {{nickname}}]; without [keepMarkdown] it stores what
    [ValueReplacer.replace] makes of the result. *)
Theorem addTranslation_placeholder :
  (forall (self : store) (path : pyval) (s : pystr),
     exists (self' : store) (y : yamlstr),
       addTranslation self path (VStr s) true true = Ok self'
       /\ PyDict.get pyval_eqb (data self') path = Some y
       /\ text y = PyStr.replace s nom nickname
       /\ contains nom (text y) = false)
  /\ (forall (self : store) (path : pyval),
        exists self' : store,
          addTranslation self path (VStr (str "Bonjour [nom]")) true true
          = Ok self'
          /\ PyDict.get pyval_eqb (data self') path
             = Some (PlainStr (str "Bonjour {{nickname}}")))
  /\ (forall (self : store) (path : pyval) (s : pystr),
        exists (self' : store) (y : yamlstr),
          addTranslation self path (VStr s) true false = Ok self'
          /\ PyDict.get pyval_eqb (data self') path = Some y
          /\ ValueReplacer.replace (PyStr.replace s nom nickname)
             = Ok (text y)).
Proof.
  split; [|split].
  - intros self path s.
    destruct (addTranslation_stored self path s true) as (y & Hy & Ha).
    eexists. exists y. split; [exact Ha|].
    cbn [data set_modified set_data].
    split; [apply (get_set_same pyval yamlstr pyval_eqb pyval_eqb_eq)|].
    rewrite (stringToYaml_str_text _ y Hy).
    split; [reflexivity|].
    apply replace_clean; [discriminate|vm_compute; reflexivity].
  - intros self path.
    destruct (addTranslation_stored self path (str "Bonjour [nom]") true)
      as (y & Hy & Ha).
    eexists. split; [exact Ha|].
    cbn [data set_modified set_data].
    rewrite (get_set_same pyval yamlstr pyval_eqb pyval_eqb_eq).
    vm_compute in Hy. now injection Hy as <-.
  - intros self path s.
    destruct (addTranslation_stored self path s false) as (y & Hy & Ha).
    eexists. exists y. split; [exact Ha|].
    cbn [data set_modified set_data].
    split; [apply (get_set_same pyval yamlstr pyval_eqb pyval_eqb_eq)|].
    rewrite (stringToYaml_str_text _ y Hy). apply replace_rewrite.
Qed.

End Stores.

(** ** The import *)

Section ExcelImport.

Import TranslationLangNs FillLocalesTranslations.

Lemma addTranslation_calls (a a' : TranslationData.t) (lang : pystr)
  (section path value : pyval) (ow km : bool) :
  TranslationData.addTranslation a lang section path value ow km = Ok a' ->
  TranslationData.calls a'
  = TranslationData.calls a
    ++ [TranslationData.mkCall lang section path value ow km].
Proof.
  unfold TranslationData.addTranslation. intros H.
  match type of H with
  | bind ?m _ = _ => destruct m as [tr| |]; try discriminate
  end.
  cbn [bind] in H.
  match type of H with
  | match ?g with _ => _ end = _ => destruct g as [ns|]; [|discriminate]
  end.
  match type of H with
  | bind ?m _ = _ => destruct m as [ns'| |]; try discriminate
  end.
  cbn [bind] in H. injection H as <-. reflexivity.
Qed.

Lemma item_nth (row : list pyval) (i : nat) (v : pyval) :
  item row i = Ok v -> nth i row VNone = v.
Proof.
  unfold item. destruct (nth_error row i) as [w|] eqn:E; [|discriminate].
  intros [= <-]. now apply nth_error_nth.
Qed.

Lemma addRow_calls (ow : bool) (row : list pyval) (a a' : TranslationData.t) :
  addRow ow row a = Ok a' ->
  TranslationData.calls a'
  = TranslationData.calls a ++ Calls.row_calls is_not_None ow row.
Proof.
  unfold addRow, Calls.row_calls. intros H.
  destruct (item row 3) as [section| |] eqn:E3; try discriminate.
  destruct (item row 4) as [path| |] eqn:E4; try discriminate.
  destruct (item row 5) as [fr| |] eqn:E5; try discriminate.
  destruct (item row 6) as [en| |] eqn:E6; try discriminate.
  cbn [bind] in H.
  rewrite (item_nth row 3 section E3), (item_nth row 4 path E4),
    (item_nth row 5 fr E5), (item_nth row 6 en E6).
  destruct (is_not_None fr).
  - match type of H with
    | bind ?m _ = _ => destruct m as [a1| |] eqn:E1; try discriminate
    end.
    cbn [bind] in H. apply addTranslation_calls in E1.
    destruct (is_not_None en).
    + apply addTranslation_calls in H. rewrite H, E1.
      now rewrite <- app_assoc.
    + injection H as <-. now rewrite E1.
  - cbn [bind] in H. destruct (is_not_None en).
    + now apply addTranslation_calls in H.
    + injection H as <-. now rewrite app_nil_r.
Qed.

Lemma addRows_calls (ow : bool) (rows : list (list pyval)) :
  forall a a' : TranslationData.t,
    addRows ow rows a = Ok a' ->
    TranslationData.calls a'
    = TranslationData.calls a
      ++ flat_map (Calls.row_calls is_not_None ow) rows.
Proof.
  induction rows as [|row rows IH]; intros a a' H.
  - injection H as <-. now rewrite app_nil_r.
  - cbn [addRows] in H.
    destruct (addRow ow row a) as [a1| |] eqn:E; try discriminate.
    cbn [bind] in H. rewrite (IH a1 a' H), (addRow_calls ow row a a1 E).
    now rewrite <- app_assoc.
Qed.

(** C2, as the code has it.  When [addTranslationsFromExcel] returns,
    the invocations of [TranslationData.addTranslation] it made are, row
    by row from the second row of the sheet [Widgets], one for French
    exactly when the French cell is not [None] and then one for English
    exactly when the English cell is not [None], each with the [overwrite]
    flag of the run and [keepMarkdown = False]; each cell decides alone,
    and a cell that holds the empty string does lead to an invocation. *)
Theorem excel_calls_when_not_None
  (load_workbook : pystr -> result workbook) (self self' : task) :
  addTranslationsFromExcel load_workbook self = Ok self' ->
  exists (wb : workbook) (sheet : worksheet),
    load_workbook (inputFile self) = Ok wb
    /\ PyDict.get PyStr.eqb wb (str "Widgets") = Some sheet
    /\ TranslationData.calls (allTranslations self')
       = TranslationData.calls (allTranslations self)
         ++ flat_map (Calls.row_calls is_not_None (overwrite self))
              (skipn 1 sheet).
Proof.
  unfold addTranslationsFromExcel. intros H.
  destruct (load_workbook (inputFile self)) as [wb| |] eqn:Ew;
    try discriminate.
  cbn [bind] in H.
  destruct (PyDict.get PyStr.eqb wb (str "Widgets")) as [sheet|] eqn:Es;
    [|discriminate].
  cbn [bind] in H.
  destruct (addRows (overwrite self) (skipn 1 sheet) (allTranslations self))
    as [a| |] eqn:Ea; try discriminate.
  cbn [bind] in H. injection H as <-.
  exists wb, sheet. split; [reflexivity|]. split; [exact Es|].
  cbn [allTranslations set_allTranslations].
  now apply addRows_calls.
Qed.

Lemma excel_calls_when_not_None_witness :
  exists self' : task,
    addTranslationsFromExcel Demo.load_workbook Demo.task = Ok self'
    /\ TranslationData.calls (allTranslations self')
       = [ TranslationData.mkCall (str "fr") (VStr (str "home"))
             (VStr (str "title")) (VStr []) false false;
           TranslationData.mkCall (str "en") (VStr (str "home"))
             (VStr (str "title")) (VStr (str "Welcome")) false false ].
Proof.
  destruct (addTranslationsFromExcel Demo.load_workbook Demo.task)
    as [self'| |] eqn:E.
  - destruct (excel_calls_when_not_None Demo.load_workbook Demo.task self' E)
      as (wb & sheet & Hw & Hs & Hc).
    exists self'. split; [reflexivity|].
    injection Hw as <-. injection Hs as <-.
    rewrite Hc. reflexivity.
  - vm_compute in E. discriminate.
  - vm_compute in E. discriminate.
Defined.

(** C2 as it is written fails.  The French cell of the second row of
    [Demo] holds the empty string, which is not a non-empty value; the run
    invokes [addTranslation] for French all the same, and the French
    store gets the key with the empty string and is marked modified.  So
    the invocations are not those of the non-null, non-empty cells. *)
Lemma excel_empty_cell_is_added :
  Calls.non_null_non_empty (nth 5 Demo.empty_fr_row VNone) = false
  /\ (exists self' : task,
        addTranslationsFromExcel Demo.load_workbook Demo.task = Ok self'
        /\ TranslationData.calls (allTranslations self')
           = [ TranslationData.mkCall (str "fr") (VStr (str "home"))
                 (VStr (str "title")) (VStr []) false false;
               TranslationData.mkCall (str "en") (VStr (str "home"))
                 (VStr (str "title")) (VStr (str "Welcome")) false false ]
        /\ PyDict.get pyval_eqb
             (TranslationData.sections
                (TranslationData.translations (allTranslations self'))
                (str "fr"))
             (VStr (str "home"))
           = Some {| modified := true;
                     data := [(VStr (str "title"), PlainStr [])];
                     file := str "locales/fr/home.yml";
                     startBoldHtml := str "<strong>";
                     endBoldHtml := str "</strong>" |})
  /\ ~ (forall (load_workbook : pystr -> result workbook) (self self' : task),
          addTranslationsFromExcel load_workbook self = Ok self' ->
          exists (wb : workbook) (sheet : worksheet),
            load_workbook (inputFile self) = Ok wb
            /\ PyDict.get PyStr.eqb wb (str "Widgets") = Some sheet
            /\ TranslationData.calls (allTranslations self')
               = TranslationData.calls (allTranslations self)
                 ++ flat_map
                      (Calls.row_calls Calls.non_null_non_empty
                         (overwrite self))
                      (skipn 1 sheet)).
Proof.
  split; [reflexivity|]. split.
  - eexists. split; [vm_compute; reflexivity|]. split; reflexivity.
  - intros H.
    destruct (addTranslationsFromExcel Demo.load_workbook Demo.task)
      as [self'| |] eqn:E; try (vm_compute in E; discriminate).
    destruct (H Demo.load_workbook Demo.task self' E)
      as (wb & sheet & Hw & Hs & Hc).
    injection Hw as <-. injection Hs as <-.
    vm_compute in E. injection E as <-.
    vm_compute in Hc. discriminate.
Qed.

(** Whatever the tree, a path the pattern finds names an entry of a
    directory that is itself an entry of the locales directory: one level
    below the root, never deeper. *)
Lemma glob_yml_one_level (top : FS.node) (root p : pystr) :
  In p (FS.glob_yml top root) ->
  exists (head d f : pystr) (names : list pystr)
         (es fs : list (pystr * FS.node)),
    head = os_path.dirname (os_path.dirname (root ++ str "/**/*.yml"))
    /\ FS.names_of top head = Ok names
    /\ FS.lookup_path top names = Some (FS.Dir es)
    /\ In (d, FS.Dir fs) es
    /\ In f (map fst fs)
    /\ FS.hidden d = false /\ FS.hidden f = false
    /\ endswith f FS.yml = true
    /\ p = os_path.join (os_path.join head d) f.
Proof.
  unfold FS.glob_yml.
  set (head := os_path.dirname (os_path.dirname (root ++ str "/**/*.yml"))).
  destruct (FS.names_of top head) as [names| |] eqn:En; try contradiction.
  destruct (FS.lookup_path top names) as [[c|es]|] eqn:El; try contradiction.
  intros H. apply in_flat_map in H as ([d n] & Hd & Hp).
  cbn [fst snd] in Hp. destruct n as [c|fs]; [contradiction|].
  destruct (FS.hidden d) eqn:Hh; [contradiction|].
  apply in_map_iff in Hp as (f & <- & Hf).
  apply filter_In in Hf as [Hf Hc].
  apply andb_true_iff in Hc as [Hc1 Hc2]. apply negb_true_iff in Hc1.
  exists head, d, f, names, es, fs. repeat split; assumption.
Qed.

(** C1 on a tree with a file two directories below the locales root.
    The file is there and can be read, yet the pattern finds only the
    files exactly one directory below the root: [loadCurrentTranslations]
    registers the two [home] stores and none for [deep.yml] (nor for the
    file next to the language directories, nor for the hidden one). *)
Theorem nested_file_not_discovered :
  FS.read Demo.tree (str "locales/fr/extra/deep.yml") = Ok (str "title: Fond")
  /\ FS.glob_yml Demo.tree (str "locales")
     = [str "locales/fr/home.yml"; str "locales/en/home.yml"]
  /\ exists self' : task,
       loadCurrentTranslations Demo.yaml_load Demo.tree Demo.task = Ok self'
       /\ Calls.stores_of (allTranslations self')
          = [ (str "fr", [(VStr (str "home"), str "locales/fr/home.yml")]);
              (str "en", [(VStr (str "home"), str "locales/en/home.yml")]) ].
Proof.
  split; [reflexivity|]. split; [reflexivity|].
  eexists. split; [vm_compute; reflexivity|]. reflexivity.
Qed.

End ExcelImport.

(** * Further properties *)

(** ** The rewriter on plain and on balanced text *)

Section RewriterMore.

Import Notation ValueReplacer.

Lemma contains_newline_false (s : pystr) :
  contains newline s = false <-> Forall (fun c => c <> 10%N) s.
Proof.
  unfold newline. induction s as [|c s IH].
  - split; [constructor|reflexivity].
  - change (contains [10%N] (c :: s))
      with (startswith (c :: s) [10%N] || contains [10%N] s).
    unfold startswith; fold startswith.
    rewrite startswith_nil, andb_true_r.
    rewrite orb_false_iff, N.eqb_neq, IH.
    split.
    + intros [H1 H2]. constructor; [congruence|assumption].
    + intros H. inversion H; subst. split; [congruence|assumption].
Qed.

Lemma breaks_plain (s : pystr) :
  Forall (fun c => c <> 10%N) s -> breaks s = s.
Proof.
  unfold breaks. induction 1 as [|c s Hc _ IH]; [reflexivity|].
  cbn [flat_map]. apply N.eqb_neq in Hc. rewrite Hc, IH. reflexivity.
Qed.

Lemma stage_absent (n st et s : pystr) :
  n <> [] -> contains n s = false -> stage n st et s = s.
Proof.
  intros Hn H. unfold stage.
  now rewrite <- (contains_count n s Hn), H.
Qed.

(** A text without line break and without any of the four notations comes
    out of the rewriter as it went in. *)
Theorem replace_plain_text (s : pystr) :
  contains newline s = false ->
  contains boldNotation s = false ->
  contains obliqueNotation s = false ->
  contains greenNotation s = false ->
  contains redNotation s = false ->
  ValueReplacer.replace s = Ok s.
Proof.
  intros Hnl Hb Ho Hg Hr.
  rewrite replace_rewrite. unfold rewrite.
  rewrite (breaks_plain s (proj1 (contains_newline_false s) Hnl)).
  rewrite (stage_absent boldNotation _ _ s) by (discriminate || assumption).
  rewrite (stage_absent obliqueNotation _ _ s) by (discriminate || assumption).
  rewrite (stage_absent greenNotation _ _ s) by (discriminate || assumption).
  rewrite (stage_absent redNotation _ _ s) by (discriminate || assumption).
  reflexivity.
Qed.

Lemma replace_plain_text_witness :
  ValueReplacer.replace (str "Welcome") = Ok (str "Welcome").
Proof.
  apply replace_plain_text; reflexivity.
Defined.

(** A call of [replaceStartEnd] for one of the four rules on a string
    where the notation occurs an even number of times returns a string
    without any occurrence of the notation. *)
Theorem even_count_all_replaced (n st et s : pystr) (fuel : nat) :
  In (n, st, et) rules ->
  count s n < fuel ->
  Nat.even (count s n) = true ->
  exists r : pystr,
    replaceStartEnd fuel s n st et = Ok r /\ contains n r = false.
Proof.
  intros Hin Hf He.
  destruct (rules_ok n st et Hin) as (Hn & Hs & Het).
  exists (stage n st et s).
  split; [now apply replaceStartEnd_stage|].
  unfold stage. rewrite He, andb_true_r.
  destruct (0 <? count s n) eqn:E.
  - apply (alternate_clean n st et Hn Hs Het (length s)). lia.
  - now rewrite (contains_count n s Hn).
Qed.

Lemma even_count_all_replaced_witness :
  exists r : pystr,
    replaceStartEnd 3 (str "a **b** c") boldNotation startBoldHtml endBoldHtml
    = Ok r
    /\ contains boldNotation r = false.
Proof.
  apply even_count_all_replaced.
  - left. reflexivity.
  - vm_compute. lia.
  - reflexivity.
Defined.

Lemma alternate_from_Forall (P : N -> Prop) (n st et : pystr) :
  Forall P st -> Forall P et ->
  forall (s : pystr) (skip k : nat),
    Forall P s -> Forall P (alternate_from n st et skip k s).
Proof.
  intros Hst Het. induction s as [|c s IH]; intros skip k Hs; [constructor|].
  inversion Hs as [|? ? Hc Hs']; subst.
  cbn [alternate_from]. destruct skip as [|j]; [|now apply IH].
  destruct (startswith (c :: s) n).
  - apply Forall_app. split; [now destruct (Nat.even k)|now apply IH].
  - constructor; [assumption|now apply IH].
Qed.

Lemma stage_Forall (P : N -> Prop) (n st et s : pystr) :
  Forall P st -> Forall P et -> Forall P s -> Forall P (stage n st et s).
Proof.
  intros Hst Het Hs. unfold stage.
  destruct ((0 <? count s n) && Nat.even (count s n)); [|assumption].
  now apply alternate_from_Forall.
Qed.

Lemma breaks_Forall (s : pystr) : Forall (fun c => c <> 10%N) (breaks s).
Proof.
  unfold breaks. induction s as [|c s IH]; [constructor|].
  cbn [flat_map]. apply Forall_app. split; [|assumption].
  destruct (N.eqb c 10) eqn:E.
  - repeat constructor; discriminate.
  - apply N.eqb_neq in E. now repeat constructor.
Qed.

Lemma tag_no_newline :
  forall n st et, In (n, st, et) rules ->
    Forall (fun c => c <> 10%N) st /\ Forall (fun c => c <> 10%N) et.
Proof.
  intros n st et H.
  repeat (destruct H as [H|H];
          [injection H as <- <- <-;
           split; repeat constructor; discriminate|]).
  destruct H.
Qed.

(** The rewriter brings no line break back. *)
Lemma replace_newline_free (s r : pystr) :
  ValueReplacer.replace s = Ok r -> contains newline r = false.
Proof.
  rewrite replace_rewrite. intros [= <-].
  apply contains_newline_false. unfold rewrite.
  assert (step : forall n st et x, In (n, st, et) rules ->
            Forall (fun c => c <> 10%N) x ->
            Forall (fun c => c <> 10%N) (stage n st et x)).
  { intros n st et x Hin Hx.
    destruct (tag_no_newline n st et Hin) as [Hs He].
    now apply stage_Forall. }
  apply step; [simpl; auto 6|].
  apply step; [simpl; auto 6|].
  apply step; [simpl; auto 6|].
  apply step; [simpl; auto 6|].
  apply breaks_Forall.
Qed.

(** What the rewriter returns has no line break. *)
Theorem replace_no_newline (s r : pystr) :
  ValueReplacer.replace s = Ok r -> contains newline r = false.
Proof.
  exact (replace_newline_free s r).
Qed.

Lemma replace_no_newline_witness :
  contains newline (str "a<br />b") = false.
Proof.
  apply (replace_no_newline (str "a" ++ newline ++ str "b")). reflexivity.
Defined.

End RewriterMore.

(** ** Stores: order of keys, first write, loading *)

Section StoresMore.

Import TranslationLangNs.

Lemma keys_set (K V : Type) (keq : K -> K -> bool)
  (d : list (K * V)) (k : K) (v : V) :
  PyDict.keys (PyDict.set keq d k v)
  = if PyDict.mem keq d k then PyDict.keys d else PyDict.keys d ++ [k].
Proof.
  unfold PyDict.mem, PyDict.keys.
  induction d as [|[k' v'] d IH]; simpl; [reflexivity|].
  destruct (keq k' k); simpl; [reflexivity|].
  rewrite IH. now destruct (PyDict.get keq d k).
Qed.

Lemma mem_set_same (d : list (pyval * yamlstr)) (k : pyval) (v : yamlstr) :
  PyDict.mem pyval_eqb (PyDict.set pyval_eqb d k v) k = true.
Proof.
  unfold PyDict.mem.
  now rewrite (get_set_same pyval yamlstr pyval_eqb pyval_eqb_eq).
Qed.

Lemma addTranslation_str_inv (self self' : store) (path : pyval) (s : pystr)
  (ow km : bool) :
  addTranslation self path (VStr s) ow km = Ok self' ->
  (negb ow && PyDict.mem pyval_eqb (data self) path = true /\ self' = self)
  \/ (negb ow && PyDict.mem pyval_eqb (data self) path = false
      /\ exists y : yamlstr,
           self' = set_modified
                     (set_data self (PyDict.set pyval_eqb (data self) path y))
                     true).
Proof.
  unfold addTranslation.
  destruct (negb ow && PyDict.mem pyval_eqb (data self) path) eqn:E.
  - intros [= <-]. now left.
  - intros H. right. split; [reflexivity|]. cbn [bind] in H.
    destruct km; cbn [negb bind] in H.
    + rewrite stringToYaml_str in H. cbn [bind] in H.
      injection H as <-. eexists. reflexivity.
    + rewrite replace_rewrite in H. cbn [bind] in H.
      rewrite stringToYaml_str in H. cbn [bind] in H.
      injection H as <-. eexists. reflexivity.
Qed.

(** [addTranslation] keeps the keys of a store in their order: a path the
    store has stays where it is, a new path goes last; no key is dropped
    and the file of the store stays the same. *)
Theorem addTranslation_keeps_key_order (self self' : store) (path : pyval)
  (s : pystr) (ow km : bool) :
  addTranslation self path (VStr s) ow km = Ok self' ->
  PyDict.keys (data self')
  = (if PyDict.mem pyval_eqb (data self) path then PyDict.keys (data self)
     else PyDict.keys (data self) ++ [path])
  /\ file self' = file self.
Proof.
  intros H.
  destruct (addTranslation_str_inv self self' path s ow km H)
    as [[E ->]|[E (y & ->)]].
  - apply andb_true_iff in E as [_ E]. now rewrite E.
  - cbn [data set_modified set_data file].
    split; [apply keys_set|reflexivity].
Qed.

Lemma addTranslation_keeps_key_order_witness :
  PyDict.keys
    (data (set_modified
             (set_data Demo.home
                [(VStr (str "title"), PlainStr (str "Accueil"));
                 (VStr (str "intro"), PlainStr (str "Bonjour"))]) true))
  = [VStr (str "title"); VStr (str "intro")].
Proof.
  apply (addTranslation_keeps_key_order Demo.home _ (VStr (str "intro"))
           (str "Bonjour") false false).
  reflexivity.
Defined.

(** Once [addTranslation] has returned for a path, a later call for the
    same path without [overwrite] changes nothing, whatever its value:
    the first value stays. *)
Theorem addTranslation_first_value_stays (self self' : store)
  (path value : pyval) (s : pystr) (ow km km' : bool) :
  addTranslation self path (VStr s) ow km = Ok self' ->
  addTranslation self' path value false km' = Ok self'.
Proof.
  intros H. unfold addTranslation at 1.
  assert (Hm : PyDict.mem pyval_eqb (data self') path = true).
  { destruct (addTranslation_str_inv self self' path s ow km H)
      as [[E ->]|[E (y & ->)]].
    - now apply andb_true_iff in E as [_ E].
    - cbn [data set_modified set_data]. apply mem_set_same. }
  now rewrite Hm.
Qed.

Lemma addTranslation_first_value_stays_witness :
  addTranslation Demo.home (VStr (str "title")) (VStr (str "Autre")) false
    false
  = Ok Demo.home.
Proof.
  apply (addTranslation_first_value_stays Demo.home Demo.home
           (VStr (str "title")) (VStr (str "Autre")) (str "Bienvenue")
           false false false).
  reflexivity.
Defined.

End StoresMore.

(** ** Loading a file *)

Section Loading.

Import TranslationLangNs.

Lemma get_in_keys (K V : Type) (keq : K -> K -> bool)
  (keq_eq : forall a b, keq a b = true <-> a = b)
  (d : list (K * V)) (k : K) (v : V) :
  PyDict.get keq d k = Some v -> In k (PyDict.keys d).
Proof.
  unfold PyDict.keys.
  induction d as [|[k' v'] d IH]; simpl; [discriminate|].
  destruct (keq k' k) eqn:E.
  - intros _. left. now apply keq_eq.
  - intros H. right. now apply IH.
Qed.

Lemma get_not_in_keys (K V : Type) (keq : K -> K -> bool)
  (keq_eq : forall a b, keq a b = true <-> a = b)
  (d : list (K * V)) (k : K) :
  ~ In k (PyDict.keys d) -> PyDict.get keq d k = None.
Proof.
  intros H. destruct (PyDict.get keq d k) as [v|] eqn:E; [|reflexivity].
  elim H. exact (get_in_keys K V keq keq_eq d k v E).
Qed.

Lemma stringToYaml_not_Hang (v : yamlval) : stringToYaml v <> Hang.
Proof.
  destruct v as [[| |s|]|s|s|l|d]; cbn [stringToYaml];
    repeat match goal with
           | |- context [if ?b then _ else _] => destruct b
           end; discriminate.
Qed.

(** [stringToYaml] returns for every value but [None], a number and a
    date, which make it raise [TypeError]. *)
Lemma stringToYaml_takes (v : yamlval) :
  if Index.takes v then exists y, stringToYaml v = Ok y
  else stringToYaml v = Raise TypeError.
Proof.
  destruct v as [[| |s|]|s|s|l|d]; cbn [stringToYaml Index.takes];
    try reflexivity;
    repeat match goal with
           | |- context [if ?b then _ else _] => destruct b
           end; eexists; reflexivity.
Qed.

Lemma loadLoop_not_Hang (td : list (pyval * yamlval)) (paths : list pyval) :
  forall d, loadLoop td paths d <> Hang.
Proof.
  induction paths as [|path paths IH]; intros d; [discriminate|].
  cbn [loadLoop].
  destruct (PyDict.get pyval_eqb td path) as [v|]; [|discriminate].
  destruct (stringToYaml v) as [y|e|] eqn:E; cbn [bind];
    [apply IH|discriminate|].
  now elim (stringToYaml_not_Hang v).
Qed.

(** The loop returns only when [stringToYaml] returns for the value of
    every key it visits. *)
Lemma loadLoop_Ok_values (td : list (pyval * yamlval)) (paths : list pyval) :
  forall d d', loadLoop td paths d = Ok d' ->
    forall p, In p paths ->
      exists v y, PyDict.get pyval_eqb td p = Some v /\ stringToYaml v = Ok y.
Proof.
  induction paths as [|path paths IH]; intros d d' H p Hp; [destruct Hp|].
  cbn [loadLoop] in H.
  destruct (PyDict.get pyval_eqb td path) as [v|] eqn:Eg; [|discriminate].
  destruct (stringToYaml v) as [y| |] eqn:Ey; try discriminate.
  cbn [bind] in H.
  destruct Hp as [<-|Hp]; [now exists v, y|].
  exact (IH _ _ H p Hp).
Qed.

(** What the loop has stored for a path: what [stringToYaml] returns for
    the value of the mapping when it visited the path, what was there
    before otherwise. *)
Lemma loadLoop_get (td : list (pyval * yamlval)) (paths : list pyval) :
  forall d d', loadLoop td paths d = Ok d' ->
    forall p,
      PyDict.get pyval_eqb d' p
      = if existsb (pyval_eqb p) paths
        then match PyDict.get pyval_eqb td p with
             | Some v => match stringToYaml v with
                         | Ok y => Some y
                         | Raise _ | Hang => None
                         end
             | None => None
             end
        else PyDict.get pyval_eqb d p.
Proof.
  induction paths as [|path paths IH]; intros d d' H p.
  - injection H as <-. reflexivity.
  - cbn [loadLoop] in H.
    destruct (PyDict.get pyval_eqb td path) as [v|] eqn:Eg; [|discriminate].
    destruct (stringToYaml v) as [y| |] eqn:Ey; try discriminate.
    cbn [bind] in H.
    rewrite (IH _ _ H p). cbn [existsb].
    destruct (existsb (pyval_eqb p) paths); [now rewrite orb_true_r|].
    rewrite orb_false_r.
    destruct (pyval_eqb p path) eqn:E.
    + apply pyval_eqb_eq in E; subst p.
      rewrite (get_set_same pyval yamlstr pyval_eqb pyval_eqb_eq).
      now rewrite Eg, Ey.
    + apply (get_set_other pyval yamlstr pyval_eqb pyval_eqb_eq).
      intros ->. now rewrite pyval_eqb_refl in E.
Qed.

Lemma loadLoop_keys (td : list (pyval * yamlval)) (paths : list pyval) :
  forall d d', loadLoop td paths d = Ok d' ->
    NoDup (PyDict.keys d ++ paths) ->
    PyDict.keys d' = PyDict.keys d ++ paths.
Proof.
  induction paths as [|path paths IH]; intros d d' H Hnd.
  - injection H as <-. now rewrite app_nil_r.
  - cbn [loadLoop] in H.
    destruct (PyDict.get pyval_eqb td path) as [v|] eqn:Eg; [|discriminate].
    destruct (stringToYaml v) as [y| |] eqn:Ey; try discriminate.
    cbn [bind] in H.
    assert (Hnot : ~ In path (PyDict.keys d)).
    { intros Hin. apply NoDup_remove_2 in Hnd. apply Hnd.
      apply in_or_app. now left. }
    assert (Hk : PyDict.keys (PyDict.set pyval_eqb d path y)
                 = PyDict.keys d ++ [path]).
    { rewrite keys_set. unfold PyDict.mem.
      now rewrite (get_not_in_keys pyval yamlstr pyval_eqb pyval_eqb_eq d path
                     Hnot). }
    rewrite (IH _ _ H); rewrite Hk, <- app_assoc; [reflexivity|exact Hnd].
Qed.

Lemma existsb_pyval_eqb (p : pyval) (l : list pyval) :
  existsb (pyval_eqb p) l = true <-> In p l.
Proof.
  rewrite existsb_exists. split.
  - intros (x & Hx & E). apply pyval_eqb_eq in E. now subst.
  - intros H. exists p. split; [assumption|apply pyval_eqb_refl].
Qed.

Lemma in_keys_get (d : list (pyval * yamlval)) (k : pyval) :
  In k (PyDict.keys d) -> exists v, PyDict.get pyval_eqb d k = Some v.
Proof.
  unfold PyDict.keys.
  induction d as [|[k' v'] d IH]; simpl; [intros []|].
  intros H. destruct (pyval_eqb k' k) eqn:E; [now exists v'|].
  destruct H as [->|H]; [now rewrite pyval_eqb_refl in E|now apply IH].
Qed.

(** The loop returns when [stringToYaml] returns for the value of every
    key it visits. *)
Lemma loadLoop_returns (td : list (pyval * yamlval)) (paths : list pyval) :
  (forall p, In p paths ->
     exists v, PyDict.get pyval_eqb td p = Some v /\ Index.takes v = true) ->
  forall d, exists d', loadLoop td paths d = Ok d'.
Proof.
  induction paths as [|path paths IH]; intros Hv d; [now exists d|].
  cbn [loadLoop].
  destruct (Hv path (or_introl eq_refl)) as (v & -> & Ht).
  pose proof (stringToYaml_takes v) as Hs. rewrite Ht in Hs.
  destruct Hs as (y & ->). cbn [bind].
  apply IH. intros p Hp. apply Hv. now right.
Qed.

(** An element the index of a sequence gives is an element of it. *)
Lemma index_In (td : list yamlval) (z : Z) (v : yamlval) :
  index td z = Ok v -> In v td.
Proof.
  unfold index.
  destruct (_ && _)%bool; [|discriminate].
  destruct (nth_error td _) as [v'|] eqn:E; [|discriminate].
  intros [= <-]. exact (nth_error_In _ _ E).
Qed.

Lemma loadSeqLoop_Ok (td paths : list yamlval) :
  forall d d', loadSeqLoop td paths d = Ok d' ->
    forall p, In p paths ->
      exists z v y,
        p = YScalar (VInt z) /\ index td z = Ok v /\ stringToYaml v = Ok y.
Proof.
  induction paths as [|path paths IH]; intros d d' H p Hp; [destruct Hp|].
  cbn [loadSeqLoop] in H.
  destruct path as [[|z|s|t]|s|s|l|m]; try discriminate.
  destruct (index td z) as [v| |] eqn:Ei; try discriminate.
  cbn [bind] in H.
  destruct (stringToYaml v) as [y| |] eqn:Ey; try discriminate.
  cbn [bind] in H.
  destruct Hp as [<-|Hp]; [now exists z, v, y|].
  exact (IH _ _ H p Hp).
Qed.

Lemma loadSeqLoop_not_Hang (td paths : list yamlval) :
  forall d, loadSeqLoop td paths d <> Hang.
Proof.
  induction paths as [|path paths IH]; intros d; [discriminate|].
  cbn [loadSeqLoop].
  destruct path as [[|z|s|t]|s|s|l|m]; try discriminate.
  unfold index.
  destruct (_ && _)%bool; [|discriminate].
  destruct (nth_error td _) as [v|]; [|discriminate].
  cbn [bind].
  destruct (stringToYaml v) as [y|e|] eqn:E; cbn [bind];
    [apply IH|discriminate|].
  now elim (stringToYaml_not_Hang v).
Qed.

(** The loop over a sequence that is not empty raises: an element that is
    no number is no index, and the element a number selects is a number,
    which [stringToYaml] refuses. *)
Lemma loadSeqLoop_raises (x : yamlval) (td : list yamlval) :
  exists e, loadSeqLoop (x :: td) (x :: td) [] = Raise e.
Proof.
  destruct (loadSeqLoop (x :: td) (x :: td) []) as [d|e|] eqn:E.
  - exfalso.
    destruct (loadSeqLoop_Ok _ _ _ _ E x (or_introl eq_refl))
      as (z & v & y & _ & Hi & Hy).
    destruct (loadSeqLoop_Ok _ _ _ _ E v (index_In _ _ _ Hi))
      as (z' & _ & _ & -> & _ & _).
    discriminate.
  - now exists e.
  - now elim (loadSeqLoop_not_Hang (x :: td) (x :: td) []).
Qed.

Lemma loadDocument_not_Hang (doc : yamlval) : loadDocument doc <> Hang.
Proof.
  destruct doc as [[| |[|c s]|]|[|c s]|[|c s]|l|m]; cbn [loadDocument];
    try discriminate.
  - apply loadSeqLoop_not_Hang.
  - apply loadLoop_not_Hang.
Qed.

Lemma forallb_keys_takes (items : list (pyval * yamlval)) (paths : list pyval) :
  forallb
    (fun k => match PyDict.get pyval_eqb items k with
              | Some v => Index.takes v
              | None => false
              end) paths = true
  <-> (forall p, In p paths ->
         exists v, PyDict.get pyval_eqb items p = Some v
                   /\ Index.takes v = true).
Proof.
  rewrite forallb_forall. split; intros H p Hp.
  - specialize (H p Hp).
    destruct (PyDict.get pyval_eqb items p) as [v|]; [|discriminate].
    now exists v.
  - destruct (H p Hp) as (v & -> & Ht). exact Ht.
Qed.

(** The documents that load are the loadable ones; every other one makes
    the loop raise. *)
Lemma loadDocument_loadable (doc : yamlval) :
  if Index.loadable doc then exists d, loadDocument doc = Ok d
  else exists e, loadDocument doc = Raise e.
Proof.
  destruct doc as [[| |[|c s]|]|[|c s]|[|c s]|[|x l]|m];
    cbn [loadDocument Index.loadable];
    try (eexists; reflexivity).
  - apply loadSeqLoop_raises.
  - destruct (forallb _ (PyDict.keys m)) eqn:E.
    + apply loadLoop_returns.
      exact (proj1 (forallb_keys_takes m (PyDict.keys m)) E).
    + destruct (loadLoop m (PyDict.keys m) []) as [d|e|] eqn:El.
      * exfalso.
        assert (Ht : forallb
                       (fun k => match PyDict.get pyval_eqb m k with
                                 | Some v => Index.takes v
                                 | None => false
                                 end) (PyDict.keys m) = true).
        { apply (proj2 (forallb_keys_takes m (PyDict.keys m))). intros p Hp.
          destruct (loadLoop_Ok_values m _ [] d El p Hp) as (v & y & Hg & Hy).
          exists v. split; [exact Hg|].
          pose proof (stringToYaml_takes v) as Hs.
          destruct (Index.takes v); [reflexivity|congruence]. }
        congruence.
      * now exists e.
      * now elim (loadLoop_not_Hang m (PyDict.keys m) []).
Qed.

(** What a store holds after it has loaded a mapping. *)
Lemma load_mapping
  (yaml_load : pystr -> result yamlval)
  (fs : FS.node) (self self' : store) (stream : pystr)
  (items : list (pyval * yamlval)) :
  FS.read fs (file self) = Ok stream ->
  yaml_load stream = Ok (YMap items) ->
  loadCurrentTranslations yaml_load fs self = Ok self' ->
  (forall path : pyval,
     PyDict.get pyval_eqb (data self') path
     = match PyDict.get pyval_eqb items path with
       | Some v => match stringToYaml v with
                   | Ok y => Some y
                   | Raise _ | Hang => None
                   end
       | None => None
       end)
  /\ (NoDup (PyDict.keys items) -> PyDict.keys (data self') = PyDict.keys items)
  /\ modified self' = modified self
  /\ file self' = file self.
Proof.
  intros Hr Hy H.
  destruct (loadCurrentTranslations_inv yaml_load fs self self' H)
    as (stream' & td & d & Hr' & Hy' & Hl & ->).
  assert (stream' = stream) by congruence. subst stream'.
  assert (td = YMap items) by congruence. subst td.
  cbn [loadDocument] in Hl.
  cbn [data set_data modified file].
  split; [|split; [|split; reflexivity]].
  - intros path. rewrite (loadLoop_get items _ [] d Hl path).
    destruct (existsb (pyval_eqb path) (PyDict.keys items)) eqn:E;
      [reflexivity|].
    assert (Hn : ~ In path (PyDict.keys items)).
    { intros Hin. apply existsb_pyval_eqb in Hin. congruence. }
    now rewrite (get_not_in_keys pyval yamlval pyval_eqb pyval_eqb_eq items
                   path Hn).
  - intros Hnd. exact (loadLoop_keys items _ [] d Hl Hnd).
Qed.

(** A document that loads and is no mapping is an empty sequence or an
    empty string, and leaves the store empty. *)
Lemma load_no_mapping (doc : yamlval) (d : list (pyval * yamlstr)) :
  loadDocument doc = Ok d ->
  (exists items, doc = YMap items)
  \/ ((doc = YSeq [] \/ doc = YScalar (VStr []) \/ doc = YFolded []
       \/ doc = YLiteral []) /\ d = []).
Proof.
  intros H.
  destruct doc as [[| |[|c s]|]|[|c s]|[|c s]|[|x l]|m];
    cbn [loadDocument] in H; try discriminate;
    try (injection H as <-; right; split; [tauto|reflexivity]).
  - destruct (loadSeqLoop_raises x l) as (e & He). congruence.
  - left. now exists m.
Qed.

(** A store that loads has read a mapping, an empty sequence or an empty
    string.  For a mapping it holds at every key what [stringToYaml]
    returns for the value of the key: a plain string in the style of its
    characters, a block scalar, a sequence or a mapping as the function
    leaves it; it holds nothing at a path the mapping lacks, and with
    distinct keys in the mapping its keys are those of the mapping in
    their order.  For the other documents it is empty.  Data the store
    held before is gone; the modified flag and the file stay. *)
Theorem load_gives_the_mapping
  (yaml_load : pystr -> result yamlval)
  (fs : FS.node) (self self' : store) :
  loadCurrentTranslations yaml_load fs self = Ok self' ->
  exists (stream : pystr) (doc : yamlval),
    FS.read fs (file self) = Ok stream
    /\ yaml_load stream = Ok doc
    /\ ((exists items : list (pyval * yamlval),
           doc = YMap items
           /\ (forall path : pyval,
                 PyDict.get pyval_eqb (data self') path
                 = match PyDict.get pyval_eqb items path with
                   | Some v => match stringToYaml v with
                               | Ok y => Some y
                               | Raise _ | Hang => None
                               end
                   | None => None
                   end)
           /\ (forall (path : pyval) (s : pystr),
                 PyDict.get pyval_eqb items path = Some (YScalar (VStr s)) ->
                 PyDict.get pyval_eqb (data self') path
                 = Some (Index.styled s))
           /\ (forall (path : pyval) (v : yamlval),
                 PyDict.get pyval_eqb items path = Some v ->
                 PyDict.mem pyval_eqb (data self') path = true)
           /\ (NoDup (PyDict.keys items) ->
               PyDict.keys (data self') = PyDict.keys items))
        \/ ((doc = YSeq [] \/ doc = YScalar (VStr []) \/ doc = YFolded []
             \/ doc = YLiteral [])
            /\ data self' = []))
    /\ modified self' = modified self
    /\ file self' = file self.
Proof.
  intros H.
  destruct (loadCurrentTranslations_inv yaml_load fs self self' H)
    as (stream & doc & d & Hr & Hy & Hl & E).
  exists stream, doc. split; [exact Hr|]. split; [exact Hy|].
  split; [|subst self'; split; reflexivity].
  destruct (load_no_mapping doc d Hl) as [(items & ->)|[Hd ->]];
    [left|right; subst self'; split; [exact Hd|reflexivity]].
  exists items. split; [reflexivity|].
  destruct (load_mapping yaml_load fs self self' stream items Hr Hy H)
    as (Hg & Hk & _ & _).
  split; [exact Hg|]. split; [|split; [|exact Hk]].
  - intros path s Hs. rewrite Hg, Hs, stringToYaml_str. reflexivity.
  - intros path v Hv. unfold PyDict.mem. rewrite Hg, Hv.
    subst self'. cbn [loadDocument] in Hl.
    destruct (loadLoop_Ok_values items _ [] d Hl path
                (get_in_keys pyval yamlval pyval_eqb pyval_eqb_eq items path v
                   Hv)) as (v' & y & Hv' & Hy').
    assert (v' = v) by congruence. subst v'. now rewrite Hy'.
Qed.

Lemma load_gives_the_mapping_witness :
  exists (stream : pystr) (doc : yamlval),
    FS.read Demo.tree (str "locales/en/home.yml") = Ok stream
    /\ Demo.yaml_load stream = Ok doc
    /\ ((exists items : list (pyval * yamlval),
           doc = YMap items
           /\ (forall path : pyval,
                 PyDict.get pyval_eqb [(VStr (str "title"), PlainStr (str "Home"))]
                   path
                 = match PyDict.get pyval_eqb items path with
                   | Some v => match stringToYaml v with
                               | Ok y => Some y
                               | Raise _ | Hang => None
                               end
                   | None => None
                   end)
           /\ (forall (path : pyval) (s : pystr),
                 PyDict.get pyval_eqb items path = Some (YScalar (VStr s)) ->
                 PyDict.get pyval_eqb [(VStr (str "title"), PlainStr (str "Home"))]
                   path
                 = Some (Index.styled s))
           /\ (forall (path : pyval) (v : yamlval),
                 PyDict.get pyval_eqb items path = Some v ->
                 PyDict.mem pyval_eqb [(VStr (str "title"), PlainStr (str "Home"))]
                   path = true)
           /\ (NoDup (PyDict.keys items) ->
               [VStr (str "title")] = PyDict.keys items))
        \/ ((doc = YSeq [] \/ doc = YScalar (VStr []) \/ doc = YFolded []
             \/ doc = YLiteral [])
            /\ [(VStr (str "title"), PlainStr (str "Home"))] = []))
    /\ false = false
    /\ str "locales/en/home.yml" = str "locales/en/home.yml".
Proof.
  exact (load_gives_the_mapping Demo.yaml_load Demo.tree
           (__init__ (str "locales/en/home.yml"))
           (set_data (__init__ (str "locales/en/home.yml"))
              [(VStr (str "title"), PlainStr (str "Home"))])
           eq_refl).
Defined.

(** A file that parses to a mapping in which some key has a value that
    is no string (a number, a date, or nothing) does not load: the
    [TypeError] of [stringToYaml] is caught and the exception that names
    the file is raised. *)
Theorem load_refuses_non_string_value
  (yaml_load : pystr -> result yamlval)
  (fs : FS.node) (self : store) (stream : pystr)
  (td : list (pyval * yamlval)) (path v : pyval) :
  FS.read fs (file self) = Ok stream ->
  yaml_load stream = Ok (YMap td) ->
  PyDict.get pyval_eqb td path = Some (YScalar v) ->
  (forall s : pystr, v <> VStr s) ->
  loadCurrentTranslations yaml_load fs self
  = Raise (Exception (str "Error loading translation yaml file " ++ file self)).
Proof.
  intros Hr Hy Hg Hv. unfold loadCurrentTranslations.
  rewrite Hr. cbn [bind]. rewrite Hy. cbn [bind loadDocument].
  destruct (loadLoop td (PyDict.keys td) []) as [d| |] eqn:El.
  - exfalso.
    destruct (loadLoop_Ok_values td _ [] d El path
                (get_in_keys pyval yamlval pyval_eqb pyval_eqb_eq td path _ Hg))
      as (v' & y & Hg' & Hy').
    rewrite Hg in Hg'. injection Hg' as <-.
    destruct v as [| |s|]; try discriminate. now apply (Hv s).
  - reflexivity.
  - exfalso. exact (loadLoop_not_Hang td _ [] El).
Qed.

Lemma load_refuses_non_string_value_witness :
  loadCurrentTranslations
    (fun _ : pystr => Ok (YMap [(VStr (str "title"), YScalar (VInt 5))]))
    Demo.tree (__init__ (str "locales/fr/home.yml"))
  = Raise (Exception (str "Error loading translation yaml file locales/fr/home.yml")).
Proof.
  apply (load_refuses_non_string_value _ Demo.tree
           (__init__ (str "locales/fr/home.yml")) (str "title: Accueil")
           [(VStr (str "title"), YScalar (VInt 5))] (VStr (str "title"))
           (VInt 5));
    try reflexivity.
  intros s. discriminate.
Defined.

(** [loadCurrentTranslations] raises two exceptions only.  What [open]
    raises comes out as it is, a missing file as [FileNotFoundError].
    Once the file is open, the exception that names the file comes out,
    and it does exactly when the parser raises or the document is not
    loadable: a document that is [None] (an empty file), a number, a
    date, a string or a sequence that is not empty, or a mapping in which
    some key has [None], a number or a date for value.  Every other
    document loads. *)
Theorem load_raises_only_for
  (yaml_load : pystr -> result yamlval)
  (fs : FS.node) (self : store) :
  (forall e : exn,
     loadCurrentTranslations yaml_load fs self = Raise e ->
     FS.read fs (file self) = Raise e
     \/ (exists stream : pystr,
           FS.read fs (file self) = Ok stream
           /\ e = Exception
                    (str "Error loading translation yaml file " ++ file self)
           /\ ((exists e' : exn, yaml_load stream = Raise e')
               \/ (exists doc : yamlval,
                     yaml_load stream = Ok doc
                     /\ Index.loadable doc = false))))
  /\ (forall (stream : pystr) (doc : yamlval),
        FS.read fs (file self) = Ok stream ->
        yaml_load stream = Ok doc ->
        if Index.loadable doc
        then exists self' : store,
               loadCurrentTranslations yaml_load fs self = Ok self'
        else loadCurrentTranslations yaml_load fs self
             = Raise (Exception
                        (str "Error loading translation yaml file "
                         ++ file self))).
Proof.
  assert (Hdoc : forall (stream : pystr) (doc : yamlval),
            FS.read fs (file self) = Ok stream ->
            yaml_load stream = Ok doc ->
            if Index.loadable doc
            then exists self' : store,
                   loadCurrentTranslations yaml_load fs self = Ok self'
            else loadCurrentTranslations yaml_load fs self
                 = Raise (Exception
                            (str "Error loading translation yaml file "
                             ++ file self))).
  { intros stream doc Hr Hy. unfold loadCurrentTranslations.
    rewrite Hr. cbn [bind]. rewrite Hy. cbn [bind].
    pose proof (loadDocument_loadable doc) as Hl.
    destruct (Index.loadable doc).
    - destruct Hl as (d & ->). cbn [bind except_reraise]. eexists. reflexivity.
    - destruct Hl as (e & ->). reflexivity. }
  split; [|exact Hdoc].
  intros e H.
  destruct (FS.read fs (file self)) as [stream|e0|] eqn:Er.
  - right. exists stream. split; [reflexivity|].
    destruct (yaml_load stream) as [doc|e'|] eqn:Ey.
    + specialize (Hdoc stream doc eq_refl Ey).
      destruct (Index.loadable doc) eqn:El.
      * destruct Hdoc as (self' & Hs). congruence.
      * split; [congruence|]. right. now exists doc.
    + unfold loadCurrentTranslations in H. rewrite Er in H. cbn [bind] in H.
      rewrite Ey in H. cbn [bind except_reraise] in H.
      injection H as <-.
      split; [reflexivity|]. left. now exists e'.
    + unfold loadCurrentTranslations in H. rewrite Er in H. cbn [bind] in H.
      rewrite Ey in H. discriminate.
  - left. unfold loadCurrentTranslations in H. rewrite Er in H.
    cbn [bind] in H. congruence.
  - unfold loadCurrentTranslations in H. rewrite Er in H. discriminate.
Qed.

Lemma load_raises_only_for_witness :
  (FS.read Demo.tree (str "locales/de/home.yml") = Raise FileNotFoundError
   \/ (exists stream : pystr,
         FS.read Demo.tree (str "locales/de/home.yml") = Ok stream
         /\ FileNotFoundError
            = Exception
                (str "Error loading translation yaml file "
                 ++ str "locales/de/home.yml")
         /\ ((exists e' : exn, Demo.yaml_load stream = Raise e')
             \/ (exists doc : yamlval,
                   Demo.yaml_load stream = Ok doc
                   /\ Index.loadable doc = false))))
  /\ loadCurrentTranslations (fun _ : pystr => Ok (YScalar VNone)) Demo.tree
       (__init__ (str "locales/fr/home.yml"))
     = Raise (Exception
                (str "Error loading translation yaml file "
                 ++ str "locales/fr/home.yml")).
Proof.
  split.
  - exact (proj1 (load_raises_only_for Demo.yaml_load Demo.tree
                    (__init__ (str "locales/de/home.yml")))
             FileNotFoundError eq_refl).
  - exact (proj2 (load_raises_only_for (fun _ : pystr => Ok (YScalar VNone))
                    Demo.tree (__init__ (str "locales/fr/home.yml")))
             (str "title: Accueil") (YScalar VNone) eq_refl eq_refl).
Defined.

(** A short folded block scalar: the file of [Demo.folded_tree] is read,
    parsed and loaded, and the store holds its seven characters as a
    folded string. *)
Lemma load_folded_tree :
  FS.read Demo.folded_tree (str "locales/fr/home.yml")
  = Ok (Demo.folded_title ++ str "Accueil")
  /\ Demo.yaml_load (Demo.folded_title ++ str "Accueil")
     = Ok (YMap [(VStr (str "title"), YFolded (str "Accueil"))])
  /\ loadCurrentTranslations Demo.yaml_load Demo.folded_tree
       (__init__ (str "locales/fr/home.yml"))
     = Ok (set_data (__init__ (str "locales/fr/home.yml"))
             [(VStr (str "title"), FoldedScalarString (str "Accueil"))]).
Proof. repeat split. Qed.

(** C6 as it is written fails for a value loaded from disk.  The file of
    [Demo.folded_tree] has the seven characters [Accueil], without line
    break, as a folded block scalar, which the loader gives as a
    [FoldedScalarString]; [stringToYaml] returns it as it is, so the store
    holds a folded string where the rule of the claim gives an inline
    one.  The style is not derived from the characters alone. *)
Lemma loaded_short_block_scalar_stays_folded :
  contains ValueReplacer.newline (str "Accueil") = false
  /\ length (str "Accueil") = 7
  /\ Index.styled (str "Accueil") = PlainStr (str "Accueil")
  /\ FS.read Demo.folded_tree (str "locales/fr/home.yml")
     = Ok (Demo.folded_title ++ str "Accueil")
  /\ Demo.yaml_load (Demo.folded_title ++ str "Accueil")
     = Ok (YMap [(VStr (str "title"), YFolded (str "Accueil"))])
  /\ (exists self' : store,
        loadCurrentTranslations Demo.yaml_load Demo.folded_tree
          (__init__ (str "locales/fr/home.yml")) = Ok self'
        /\ PyDict.get pyval_eqb (data self') (VStr (str "title"))
           = Some (FoldedScalarString (str "Accueil")))
  /\ ~ (forall (yaml_load : pystr -> result yamlval)
          (fs : FS.node) (self self' : store),
          loadCurrentTranslations yaml_load fs self = Ok self' ->
          forall (path : pyval) (y : yamlstr),
            PyDict.get pyval_eqb (data self') path = Some y ->
            y = Index.styled (text y)).
Proof.
  destruct load_folded_tree as (Hr & Hy & Hl).
  split; [reflexivity|]. split; [reflexivity|]. split; [reflexivity|].
  split; [exact Hr|]. split; [exact Hy|].
  split.
  - eexists. split; [exact Hl|reflexivity].
  - intros H.
    specialize (H Demo.yaml_load Demo.folded_tree _ _ Hl (VStr (str "title"))
                  (FoldedScalarString (str "Accueil")) eq_refl).
    discriminate.
Qed.

(** C6, amended.  For a plain string the style follows from the
    characters alone: folded with a line break or more than 76
    characters, inline otherwise, so inline at 76 characters without a
    line break and folded at 77.  [addTranslation] stores its value in
    the style of that rule whenever it stores one, with [overwrite] or at
    a path the store lacks.  [loadCurrentTranslations] of a mapping whose
    values are strings returns, and the store holds at every key of the
    mapping: a plain scalar in the style of that rule; a folded block
    scalar folded, whatever its characters; a literal block scalar
    folded with a line break or more than 76 characters, and literal
    otherwise. *)
Theorem style_from_content_of_plain_strings :
  (forall s : pystr,
     stringToYaml (VStr s)
     = Ok (if contains ValueReplacer.newline s || (76 <? length s)
           then FoldedScalarString s else PlainStr s))
  /\ (forall s : pystr,
        length s = 76 -> contains ValueReplacer.newline s = false ->
        stringToYaml (VStr s) = Ok (PlainStr s))
  /\ (forall s : pystr,
        length s = 77 -> stringToYaml (VStr s) = Ok (FoldedScalarString s))
  /\ (forall (self : store) (path : pyval) (s : pystr)
        (overwrite keepMarkdown : bool),
        negb overwrite && PyDict.mem pyval_eqb (data self) path = false ->
        exists self' : store,
          addTranslation self path (VStr s) overwrite keepMarkdown = Ok self'
          /\ PyDict.get pyval_eqb (data self') path
             = Some (Index.styled
                       (if keepMarkdown then PyStr.replace s nom nickname
                        else Notation.rewrite (PyStr.replace s nom nickname))))
  /\ (forall (yaml_load : pystr -> result yamlval)
        (fs : FS.node) (self : store) (stream : pystr)
        (items : list (pyval * yamlval)),
        FS.read fs (file self) = Ok stream ->
        yaml_load stream = Ok (YMap items) ->
        (forall (path : pyval) (v : yamlval),
           PyDict.get pyval_eqb items path = Some v ->
           exists s : pystr,
             v = YScalar (VStr s) \/ v = YFolded s \/ v = YLiteral s) ->
        exists self' : store,
          loadCurrentTranslations yaml_load fs self = Ok self'
          /\ (forall (path : pyval) (s : pystr),
                PyDict.get pyval_eqb items path = Some (YScalar (VStr s)) ->
                PyDict.get pyval_eqb (data self') path
                = Some (Index.styled s))
          /\ (forall (path : pyval) (s : pystr),
                PyDict.get pyval_eqb items path = Some (YFolded s) ->
                PyDict.get pyval_eqb (data self') path
                = Some (FoldedScalarString s))
          /\ (forall (path : pyval) (s : pystr),
                PyDict.get pyval_eqb items path = Some (YLiteral s) ->
                PyDict.get pyval_eqb (data self') path
                = Some (if contains ValueReplacer.newline s
                           || (76 <? length s)
                        then FoldedScalarString s
                        else LiteralScalarString s))).
Proof.
  split; [exact stringToYaml_str|].
  split; [intros s Hl Hn; rewrite stringToYaml_str, Hn, Hl; reflexivity|].
  split; [intros s Hl; rewrite stringToYaml_str, Hl;
          now rewrite orb_true_r|].
  split.
  - intros self path s overwrite keepMarkdown Hg.
    unfold addTranslation. rewrite Hg. cbn [bind].
    destruct keepMarkdown; cbn [negb].
    + cbn [bind]. rewrite stringToYaml_str. cbn [bind].
      eexists. split; [reflexivity|].
      cbn [data set_modified set_data].
      apply (get_set_same pyval yamlstr pyval_eqb pyval_eqb_eq).
    + rewrite replace_rewrite. cbn [bind].
      rewrite stringToYaml_str. cbn [bind].
      eexists. split; [reflexivity|].
      cbn [data set_modified set_data].
      apply (get_set_same pyval yamlstr pyval_eqb pyval_eqb_eq).
  - intros yaml_load fs self stream items Hr Hy Hv.
    assert (Hl : exists d, loadLoop items (PyDict.keys items) [] = Ok d).
    { apply loadLoop_returns. intros p Hp.
      destruct (in_keys_get items p Hp) as (v & Hg).
      exists v. split; [exact Hg|].
      destruct (Hv p v Hg) as (s & [->|[->| ->]]); reflexivity. }
    destruct Hl as (d & Hl).
    assert (H : loadCurrentTranslations yaml_load fs self
                = Ok (set_data self d)).
    { unfold loadCurrentTranslations. rewrite Hr. cbn [bind].
      rewrite Hy. cbn [bind loadDocument]. now rewrite Hl. }
    exists (set_data self d). split; [exact H|].
    destruct (load_mapping yaml_load fs self _ stream items Hr Hy H)
      as (Hg & _).
    split; [|split]; intros path s Hs; rewrite Hg, Hs.
    + now rewrite stringToYaml_str.
    + cbn [stringToYaml].
      now destruct (contains ValueReplacer.newline s), (76 <? length s).
    + cbn [stringToYaml].
      now destruct (contains ValueReplacer.newline s), (76 <? length s).
Qed.

Lemma style_from_content_of_plain_strings_witness :
  stringToYaml (VStr (repeat 97%N 76)) = Ok (PlainStr (repeat 97%N 76))
  /\ stringToYaml (VStr (repeat 97%N 77))
     = Ok (FoldedScalarString (repeat 97%N 77))
  /\ (exists self' : store,
        addTranslation Demo.home (VStr (str "intro")) (VStr (str "Bonjour"))
          false false = Ok self'
        /\ PyDict.get pyval_eqb (data self') (VStr (str "intro"))
           = Some (Index.styled
                     (Notation.rewrite
                        (PyStr.replace (str "Bonjour") nom nickname))))
  /\ (exists self' : store,
        loadCurrentTranslations Demo.yaml_load Demo.tree
          (__init__ (str "locales/en/home.yml")) = Ok self'
        /\ PyDict.get pyval_eqb (data self') (VStr (str "title"))
           = Some (Index.styled (str "Home"))).
Proof.
  destruct style_from_content_of_plain_strings
    as (_ & H76 & H77 & Hadd & Hload).
  split; [apply H76; reflexivity|].
  split; [apply H77; reflexivity|].
  split; [apply Hadd; reflexivity|].
  destruct (Hload Demo.yaml_load Demo.tree
              (__init__ (str "locales/en/home.yml")) (str "title: Home")
              [(VStr (str "title"), YScalar (VStr (str "Home")))]
              eq_refl eq_refl) as (self' & Hs & Hp & _).
  - intros path v Hg. exists (str "Home").
    cbn [PyDict.get] in Hg.
    destruct (pyval_eqb (VStr (str "title")) path); [|discriminate].
    injection Hg as <-. now left.
  - exists self'. split; [exact Hs|].
    apply Hp. reflexivity.
Defined.

End Loading.

(** ** The index *)

Section IndexMore.

Import TranslationLangNs.

Lemma pystr_eqb_refl (a : pystr) : PyStr.eqb a a = true.
Proof. now apply pystr_eqb_eq. Qed.

Lemma set_get_id (K V : Type) (keq : K -> K -> bool)
  (d : list (K * V)) (k : K) (v : V) :
  PyDict.get keq d k = Some v -> PyDict.set keq d k v = d.
Proof.
  induction d as [|[k' v'] d IH]; simpl; [discriminate|].
  destruct (keq k' k); [now intros [= ->]|].
  intros H. now rewrite IH.
Qed.

Lemma sections_ensure (tr : list (pystr * list (pyval * store)))
  (lang l : pystr) :
  TranslationData.sections (TranslationData.ensure_lang tr lang) l
  = TranslationData.sections tr l.
Proof.
  unfold TranslationData.ensure_lang, TranslationData.sections, PyDict.mem.
  destruct (PyDict.get PyStr.eqb tr lang) as [d|] eqn:E; [reflexivity|].
  cbn [negb].
  destruct (PyStr.eqb lang l) eqn:El.
  - apply pystr_eqb_eq in El; subst l.
    rewrite (get_set_same pystr _ PyStr.eqb pystr_eqb_eq). now rewrite E.
  - rewrite (get_set_other pystr _ PyStr.eqb pystr_eqb_eq); [reflexivity|].
    intros ->. now rewrite pystr_eqb_refl in El.
Qed.

(** [tr[lang][section] = st] and what the index then has. *)
Lemma sections_after_set (tr : list (pystr * list (pyval * store)))
  (lang : pystr) (section : pyval) (st : store) :
  let tr' := PyDict.set PyStr.eqb tr lang
               (PyDict.set pyval_eqb (TranslationData.sections tr lang)
                  section st) in
  PyDict.get pyval_eqb (TranslationData.sections tr' lang) section = Some st
  /\ forall (lang' : pystr) (section' : pyval),
       lang' <> lang \/ section' <> section ->
       PyDict.get pyval_eqb (TranslationData.sections tr' lang') section'
       = PyDict.get pyval_eqb (TranslationData.sections tr lang') section'.
Proof.
  intros tr'. unfold tr', TranslationData.sections at 1 3.
  split.
  - rewrite (get_set_same pystr _ PyStr.eqb pystr_eqb_eq).
    apply (get_set_same pyval store pyval_eqb pyval_eqb_eq).
  - intros lang' section' Hne.
    destruct (PyStr.eqb lang lang') eqn:El.
    + apply pystr_eqb_eq in El; subst lang'.
      rewrite (get_set_same pystr _ PyStr.eqb pystr_eqb_eq).
      apply (get_set_other pyval store pyval_eqb pyval_eqb_eq).
      destruct Hne as [H|H]; [now elim H|congruence].
    + rewrite (get_set_other pystr _ PyStr.eqb pystr_eqb_eq); [reflexivity|].
      intros ->. now rewrite pystr_eqb_refl in El.
Qed.

(** Lookup after [addTranslations]. *)
Lemma addTranslations_find (a : TranslationData.t) (lang : pystr)
  (section : pyval) (st : store) :
  Index.find_store (TranslationData.addTranslations a lang section st)
    lang section = Some st
  /\ forall (lang' : pystr) (section' : pyval),
       lang' <> lang \/ section' <> section ->
       Index.find_store (TranslationData.addTranslations a lang section st)
         lang' section'
       = Index.find_store a lang' section'.
Proof.
  unfold Index.find_store, TranslationData.addTranslations.
  cbn [TranslationData.translations TranslationData.set_translations].
  destruct (sections_after_set
              (TranslationData.ensure_lang (TranslationData.translations a)
                 lang) lang section st) as [H1 H2].
  split; [exact H1|].
  intros lang' section' Hne. rewrite (H2 lang' section' Hne).
  now rewrite sections_ensure.
Qed.

(** A store registered with [addTranslations] is the one found at its
    language and section, in the place of any store that was there; the
    stores at the other languages and sections stay. *)
Theorem addTranslations_then_find (a : TranslationData.t) (lang : pystr)
  (section : pyval) (st : store) :
  Index.find_store (TranslationData.addTranslations a lang section st)
    lang section = Some st
  /\ forall (lang' : pystr) (section' : pyval),
       lang' <> lang \/ section' <> section ->
       Index.find_store (TranslationData.addTranslations a lang section st)
         lang' section'
       = Index.find_store a lang' section'.
Proof.
  exact (addTranslations_find a lang section st).
Qed.

Lemma addTranslations_then_find_witness :
  Index.find_store
    (TranslationData.addTranslations
       (TranslationData.addTranslations
          (TranslationData.__init__ (str "locales")) (str "fr")
          (VStr (str "home")) Demo.home)
       (str "en") (VStr (str "home")) Demo.home)
    (str "fr") (VStr (str "home"))
  = Some Demo.home.
Proof.
  rewrite (proj2 (addTranslations_then_find
                    (TranslationData.addTranslations
                       (TranslationData.__init__ (str "locales")) (str "fr")
                       (VStr (str "home")) Demo.home)
                    (str "en") (VStr (str "home")) Demo.home)
             (str "fr") (VStr (str "home"))).
  - apply addTranslations_then_find.
  - left. discriminate.
Defined.

(** [TranslationData.addTranslation], when it returns, has passed the
    call to one store and put the result at the language and section:
    the store that was there, or, when there was none, a new empty store
    bound to [<localesPath>/<lang>/<section>.yml].  Every other store of
    the index is as before. *)
Theorem index_addTranslation_touches_one_store (a a' : TranslationData.t)
  (lang : pystr) (section path value : pyval) (ow km : bool) :
  TranslationData.addTranslation a lang section path value ow km = Ok a' ->
  exists ns ns' : store,
    (Index.find_store a lang section = Some ns
     \/ (Index.find_store a lang section = None
         /\ exists name : pystr,
              section = VStr name
              /\ ns = __init__
                        (os_path.join
                           (os_path.join (TranslationData.localesPath a) lang)
                           (name ++ str ".yml"))))
    /\ TranslationLangNs.addTranslation ns path value ow km = Ok ns'
    /\ Index.find_store a' lang section = Some ns'
    /\ (forall (lang' : pystr) (section' : pyval),
          lang' <> lang \/ section' <> section ->
          Index.find_store a' lang' section' = Index.find_store a lang' section')
    /\ TranslationData.localesPath a' = TranslationData.localesPath a.
Proof.
  unfold TranslationData.addTranslation, Index.find_store.
  cbn [TranslationData.translations TranslationData.localesPath
       TranslationData.log_call].
  set (tr := TranslationData.ensure_lang (TranslationData.translations a) lang).
  assert (Htr : forall l, TranslationData.sections tr l
                          = TranslationData.sections
                              (TranslationData.translations a) l)
    by (intros l; apply sections_ensure).
  intros H.
  assert (Hcase :
    exists tr1 ns,
      (if negb (PyDict.mem pyval_eqb (TranslationData.sections tr lang) section)
       then
         name <- TranslationData.add_yml section ;;
         Ok (PyDict.set PyStr.eqb tr lang
               (PyDict.set pyval_eqb (TranslationData.sections tr lang) section
                  (__init__
                     (os_path.join
                        (os_path.join (TranslationData.localesPath a) lang)
                        name))))
       else Ok tr) = Ok tr1
      /\ PyDict.get pyval_eqb (TranslationData.sections tr1 lang) section
         = Some ns
      /\ (forall lang' section', lang' <> lang \/ section' <> section ->
            PyDict.get pyval_eqb (TranslationData.sections tr1 lang') section'
            = PyDict.get pyval_eqb (TranslationData.sections tr lang') section')
      /\ (PyDict.get pyval_eqb (TranslationData.sections tr lang) section
          = Some ns
          \/ (PyDict.get pyval_eqb (TranslationData.sections tr lang) section
              = None
              /\ exists name, section = VStr name
                   /\ ns = __init__
                             (os_path.join
                                (os_path.join (TranslationData.localesPath a)
                                   lang)
                                (name ++ str ".yml"))))).
  { unfold PyDict.mem in *.
    destruct (PyDict.get pyval_eqb (TranslationData.sections tr lang) section)
      as [ns|] eqn:Eg; cbn [negb] in *.
    - exists tr, ns. repeat split; auto.
    - destruct section as [| |name|]; try discriminate.
      cbn [TranslationData.add_yml bind] in *.
      destruct (sections_after_set tr lang (VStr name)
                  (__init__
                     (os_path.join
                        (os_path.join (TranslationData.localesPath a) lang)
                        (name ++ FS.yml)))) as [H1 H2].
      eexists. eexists. split; [reflexivity|]. split; [exact H1|].
      split; [exact H2|]. right. split; [reflexivity|].
      exists name. split; reflexivity. }
  destruct Hcase as (tr1 & ns & E1 & Hg & Hframe & Hwas).
  rewrite E1 in H. cbn [bind] in H. rewrite Hg in H.
  destruct (TranslationLangNs.addTranslation ns path value ow km)
    as [ns'| |] eqn:Ea; try discriminate.
  cbn [bind] in H. injection H as <-.
  cbn [TranslationData.translations TranslationData.set_translations
       TranslationData.localesPath TranslationData.log_call].
  destruct (sections_after_set tr1 lang section ns') as [H1 H2].
  exists ns, ns'. rewrite <- (Htr lang).
  split; [exact Hwas|]. split; [exact Ea|]. split; [exact H1|].
  split; [|reflexivity].
  intros lang' section' Hne.
  now rewrite (H2 lang' section' Hne), (Hframe lang' section' Hne), Htr.
Qed.

Lemma index_addTranslation_touches_one_store_witness :
  exists a' : TranslationData.t,
    TranslationData.addTranslation (TranslationData.__init__ (str "locales"))
      (str "fr") (VStr (str "home")) (VStr (str "title"))
      (VStr (str "Bonjour")) false false = Ok a'
    /\ exists ns ns' : store,
         (Index.find_store (TranslationData.__init__ (str "locales"))
            (str "fr") (VStr (str "home")) = Some ns
          \/ (Index.find_store (TranslationData.__init__ (str "locales"))
                (str "fr") (VStr (str "home")) = None
              /\ exists name : pystr,
                   VStr (str "home") = VStr name
                   /\ ns = __init__
                             (os_path.join
                                (os_path.join
                                   (TranslationData.localesPath
                                      (TranslationData.__init__
                                         (str "locales")))
                                   (str "fr"))
                                (name ++ str ".yml"))))
         /\ TranslationLangNs.addTranslation ns (VStr (str "title"))
              (VStr (str "Bonjour")) false false = Ok ns'
         /\ Index.find_store a' (str "fr") (VStr (str "home")) = Some ns'
         /\ (forall (lang' : pystr) (section' : pyval),
               lang' <> str "fr" \/ section' <> VStr (str "home") ->
               Index.find_store a' lang' section'
               = Index.find_store (TranslationData.__init__ (str "locales"))
                   lang' section')
         /\ TranslationData.localesPath a'
            = TranslationData.localesPath
                (TranslationData.__init__ (str "locales")).
Proof.
  destruct (TranslationData.addTranslation
              (TranslationData.__init__ (str "locales")) (str "fr")
              (VStr (str "home")) (VStr (str "title")) (VStr (str "Bonjour"))
              false false) as [a'| |] eqn:E.
  - exists a'. split; [reflexivity|].
    exact (index_addTranslation_touches_one_store _ a' _ _ _ _ _ _ E).
  - vm_compute in E. discriminate.
  - vm_compute in E. discriminate.
Defined.

(** ** An import that finds every key in place *)

Lemma find_store_lang_present (a : TranslationData.t) (lang : pystr)
  (section : pyval) (ns : store) :
  Index.find_store a lang section = Some ns ->
  PyDict.get PyStr.eqb (TranslationData.translations a) lang
  = Some (TranslationData.sections (TranslationData.translations a) lang).
Proof.
  unfold Index.find_store, TranslationData.sections.
  destruct (PyDict.get PyStr.eqb (TranslationData.translations a) lang);
    [reflexivity|discriminate].
Qed.

(** Without [overwrite], a call for a path that is there leaves the
    index as it was. *)
Lemma index_addTranslation_present (a : TranslationData.t) (lang : pystr)
  (section path value : pyval) (km : bool) :
  Index.present a lang section path = true ->
  exists a' : TranslationData.t,
    TranslationData.addTranslation a lang section path value false km = Ok a'
    /\ TranslationData.translations a' = TranslationData.translations a.
Proof.
  unfold Index.present. intros H.
  destruct (Index.find_store a lang section) as [ns|] eqn:Ef; [|discriminate].
  pose proof (find_store_lang_present a lang section ns Ef) as Hl.
  unfold Index.find_store in Ef.
  unfold TranslationData.addTranslation.
  cbn [TranslationData.translations TranslationData.localesPath
       TranslationData.log_call].
  assert (Het : TranslationData.ensure_lang (TranslationData.translations a)
                  lang = TranslationData.translations a).
  { unfold TranslationData.ensure_lang, PyDict.mem. now rewrite Hl. }
  rewrite Het. unfold PyDict.mem at 1. rewrite Ef. cbn [negb bind].
  rewrite Ef.
  unfold TranslationLangNs.addTranslation. rewrite H. cbn [negb andb bind].
  eexists. split; [reflexivity|].
  cbn [TranslationData.translations TranslationData.set_translations].
  rewrite (set_get_id _ _ pyval_eqb _ section ns Ef).
  exact (set_get_id _ _ PyStr.eqb _ lang _ Hl).
Qed.

Lemma item_in_range (row : list pyval) (i : nat) :
  i < length row ->
  FillLocalesTranslations.item row i = Ok (nth i row VNone).
Proof.
  intros H. unfold FillLocalesTranslations.item.
  destruct (nth_error row i) as [v|] eqn:E.
  - now rewrite (nth_error_nth row i VNone E).
  - apply nth_error_None in E. lia.
Qed.

Lemma present_ext (a b : TranslationData.t) (lang : pystr)
  (section path : pyval) :
  TranslationData.translations a = TranslationData.translations b ->
  Index.present a lang section path = Index.present b lang section path.
Proof.
  unfold Index.present, Index.find_store. now intros ->.
Qed.

Lemma covered_ext (a b : TranslationData.t) (row : list pyval) :
  TranslationData.translations a = TranslationData.translations b ->
  Index.covered a row = Index.covered b row.
Proof.
  intros H. unfold Index.covered.
  now rewrite !(present_ext a b _ _ _ H).
Qed.

Lemma forallb_covered_ext (a b : TranslationData.t)
  (rows : list (list pyval)) :
  TranslationData.translations a = TranslationData.translations b ->
  forallb (Index.covered a) rows = forallb (Index.covered b) rows.
Proof.
  intros H. induction rows as [|row rows IH]; [reflexivity|].
  cbn [forallb]. now rewrite IH, (covered_ext a b row H).
Qed.

Lemma addRow_covered (row : list pyval) (a : TranslationData.t) :
  Index.covered a row = true ->
  exists a' : TranslationData.t,
    FillLocalesTranslations.addRow false row a = Ok a'
    /\ TranslationData.translations a' = TranslationData.translations a.
Proof.
  unfold Index.covered. intros H.
  apply andb_true_iff in H as [H Hen].
  apply andb_true_iff in H as [Hlen Hfr].
  apply Nat.leb_le in Hlen.
  unfold FillLocalesTranslations.addRow.
  rewrite !item_in_range by lia. cbn [bind].
  assert (Hstep : forall (b : TranslationData.t) (lang : pystr) (v : pyval),
            TranslationData.translations b = TranslationData.translations a ->
            negb (FillLocalesTranslations.is_not_None v)
            || Index.present a lang (nth 3 row VNone) (nth 4 row VNone) = true ->
            exists b',
              (if FillLocalesTranslations.is_not_None v
               then TranslationData.addTranslation b lang (nth 3 row VNone)
                      (nth 4 row VNone) v false false
               else Ok b) = Ok b'
              /\ TranslationData.translations b'
                 = TranslationData.translations a).
  { intros b lang v Hb Hv.
    destruct (FillLocalesTranslations.is_not_None v); [|now exists b].
    cbn [negb orb] in Hv. rewrite <- (present_ext b a _ _ _ Hb) in Hv.
    destruct (index_addTranslation_present b lang _ _ v false Hv)
      as (b' & E & Ht).
    exists b'. split; [exact E|congruence]. }
  destruct (Hstep a (str "fr") (nth 5 row VNone) eq_refl Hfr) as (a1 & E1 & H1).
  rewrite E1. cbn [bind].
  exact (Hstep a1 (str "en") (nth 6 row VNone) H1 Hen).
Qed.

Lemma addRows_covered (rows : list (list pyval)) :
  forall a : TranslationData.t,
    forallb (Index.covered a) rows = true ->
    exists a' : TranslationData.t,
      FillLocalesTranslations.addRows false rows a = Ok a'
      /\ TranslationData.translations a' = TranslationData.translations a.
Proof.
  induction rows as [|row rows IH]; intros a H.
  - now exists a.
  - cbn [forallb] in H. apply andb_true_iff in H as [Hr Hrs].
    destruct (addRow_covered row a Hr) as (a1 & E1 & H1).
    cbn [FillLocalesTranslations.addRows]. rewrite E1. cbn [bind].
    destruct (IH a1) as (a' & E & Ht).
    + now rewrite (forallb_covered_ext a1 a rows H1).
    + exists a'. split; [exact E|congruence].
Qed.

Lemma save_sections_unmodified
  (yaml_dump : list (pyval * yamlstr) -> pystr)
  (stores : list (pyval * store)) (fs : FS.node) :
  forallb (fun ss : pyval * store => negb (modified (snd ss))) stores = true ->
  TranslationData.save_sections yaml_dump stores fs = Ok fs.
Proof.
  induction stores as [|[k ns] stores IH]; intros H; [reflexivity|].
  cbn [forallb snd] in H. apply andb_true_iff in H as [Hm Hs].
  apply negb_true_iff in Hm.
  cbn [TranslationData.save_sections]. unfold save. rewrite Hm. cbn [bind].
  now apply IH.
Qed.

(** When no store is marked modified, saving the index writes no file. *)
Lemma save_unmodified (yaml_dump : list (pyval * yamlstr) -> pystr)
  (a : TranslationData.t) (fs : FS.node) :
  Index.unmodified a = true ->
  TranslationData.save yaml_dump a fs = Ok fs.
Proof.
  unfold Index.unmodified, TranslationData.save.
  induction (TranslationData.translations a) as [|[l stores] tr IH];
    intros H; [reflexivity|].
  cbn [forallb snd] in H. apply andb_true_iff in H as [Hs Ht].
  cbn [TranslationData.save_langs].
  rewrite (save_sections_unmodified yaml_dump stores fs Hs). cbn [bind].
  now apply IH.
Qed.

End IndexMore.

(** ** A run that has nothing new to store *)

Section NothingNew.

Import TranslationLangNs FillLocalesTranslations.

Lemma forallb_set_snd (K V : Type) (keq : K -> K -> bool) (P : V -> bool)
  (d : list (K * V)) (k : K) (v : V) :
  forallb (fun kv : K * V => P (snd kv)) d = true ->
  P v = true ->
  forallb (fun kv : K * V => P (snd kv)) (PyDict.set keq d k v) = true.
Proof.
  intros Hd Hv. induction d as [|[k' v'] d IH]; simpl.
  - now rewrite Hv.
  - simpl in Hd. apply andb_true_iff in Hd as [H1 H2].
    destruct (keq k' k); simpl.
    + now rewrite Hv, H2.
    + now rewrite H1, IH.
Qed.

Lemma get_forallb_snd (K V : Type) (keq : K -> K -> bool) (P : V -> bool)
  (d : list (K * V)) (k : K) (v : V) :
  forallb (fun kv : K * V => P (snd kv)) d = true ->
  PyDict.get keq d k = Some v -> P v = true.
Proof.
  induction d as [|[k' v'] d IH]; simpl; [discriminate|].
  intros Hd. apply andb_true_iff in Hd as [H1 H2].
  destruct (keq k' k); [now intros [= <-]|now apply IH].
Qed.

Lemma unmodified_addTranslations (a : TranslationData.t) (lang : pystr)
  (sec : pyval) (st : store) :
  Index.unmodified a = true -> modified st = false ->
  Index.unmodified (TranslationData.addTranslations a lang sec st) = true.
Proof.
  unfold Index.unmodified, TranslationData.addTranslations.
  cbn [TranslationData.translations TranslationData.set_translations].
  intros Ha Hst.
  set (Q := fun ss : pyval * store => negb (modified (snd ss))).
  assert (Het : forallb (fun ls : pystr * list (pyval * store) =>
                           forallb Q (snd ls))
                  (TranslationData.ensure_lang
                     (TranslationData.translations a) lang) = true).
  { unfold TranslationData.ensure_lang.
    destruct (negb (PyDict.mem PyStr.eqb (TranslationData.translations a) lang));
      [|exact Ha].
    now apply (forallb_set_snd _ _ PyStr.eqb (forallb Q)). }
  apply (forallb_set_snd _ _ PyStr.eqb (forallb Q)); [exact Het|].
  apply (forallb_set_snd _ _ pyval_eqb (fun ns => negb (modified ns))).
  - unfold TranslationData.sections.
    destruct (PyDict.get PyStr.eqb
                (TranslationData.ensure_lang (TranslationData.translations a)
                   lang) lang) as [d|] eqn:E; [|reflexivity].
    exact (get_forallb_snd _ _ PyStr.eqb (forallb Q) _ lang d Het E).
  - now rewrite Hst.
Qed.

(** Loading marks no store modified. *)
Lemma loadFiles_unmodified
  (yaml_load : pystr -> result yamlval)
  (fs : FS.node) (ymlFiles : list pystr) :
  forall a a' : TranslationData.t,
    loadFiles yaml_load fs ymlFiles a = Ok a' ->
    Index.unmodified a = true -> Index.unmodified a' = true.
Proof.
  induction ymlFiles as [|f files IH]; intros a a' H Ha.
  - now injection H as <-.
  - cbn [loadFiles] in H.
    destruct (TranslationLangNs.loadCurrentTranslations yaml_load fs
                (TranslationLangNs.__init__ f)) as [ns| |] eqn:E;
      try discriminate.
    cbn [bind] in H. apply (IH _ _ H).
    apply unmodified_addTranslations; [exact Ha|].
    destruct (loadCurrentTranslations_inv yaml_load fs _ ns E)
      as (stream & td & d & _ & _ & _ & ->).
    reflexivity.
Qed.

(** A run without [overwrite] in which every row has its seven cells and
    every cell that is not [None] addresses a path the loaded files
    already have writes nothing: the file system after the run is the one
    before it. *)
Theorem rerun_without_overwrite_writes_nothing
  (yaml_load : pystr -> result yamlval)
  (yaml_dump : list (pyval * yamlstr) -> pystr)
  (load_workbook : pystr -> result workbook)
  (fs : FS.node) (inputFile localesPath : pystr) (section : pyval)
  (loaded : task) (wb : workbook) (sheet : worksheet) :
  loadCurrentTranslations yaml_load fs
    (__init__ inputFile localesPath false section) = Ok loaded ->
  load_workbook inputFile = Ok wb ->
  PyDict.get PyStr.eqb wb (str "Widgets") = Some sheet ->
  forallb (Index.covered (allTranslations loaded)) (skipn 1 sheet) = true ->
  generate_libelles yaml_load yaml_dump load_workbook fs inputFile localesPath
    false section = Ok fs.
Proof.
  intros Hload Hwb Hsheet Hcov.
  unfold generate_libelles. rewrite Hload. cbn [bind].
  assert (Hu : Index.unmodified (allTranslations loaded) = true).
  { unfold loadCurrentTranslations in Hload.
    destruct (loadFiles yaml_load fs _ _) as [a| |] eqn:E; try discriminate.
    cbn [bind] in Hload. injection Hload as <-.
    cbn [allTranslations set_allTranslations].
    exact (loadFiles_unmodified yaml_load fs _ _ a E eq_refl). }
  assert (Hi : inputFile = FillLocalesTranslations.inputFile loaded
               /\ overwrite loaded = false).
  { unfold loadCurrentTranslations in Hload.
    destruct (loadFiles yaml_load fs _ _) as [a| |]; try discriminate.
    cbn [bind] in Hload. injection Hload as <-. split; reflexivity. }
  destruct Hi as [Hi Ho].
  unfold addTranslationsFromExcel. rewrite <- Hi, Hwb. cbn [bind].
  rewrite Hsheet. cbn [bind]. rewrite Ho.
  destruct (addRows_covered (skipn 1 sheet) (allTranslations loaded) Hcov)
    as (a' & E & Ht).
  rewrite E. cbn [bind].
  unfold saveAllTranslations. cbn [allTranslations set_allTranslations].
  apply save_unmodified.
  unfold Index.unmodified in *. now rewrite Ht.
Qed.

Lemma rerun_without_overwrite_writes_nothing_witness :
  generate_libelles Demo.yaml_load Demo.yaml_dump Demo.load_workbook Demo.tree
    (str "widgets.xlsx") (str "locales") false VNone = Ok Demo.tree.
Proof.
  destruct (loadCurrentTranslations Demo.yaml_load Demo.tree
              (__init__ (str "widgets.xlsx") (str "locales") false VNone))
    as [loaded| |] eqn:E.
  - apply (rerun_without_overwrite_writes_nothing Demo.yaml_load
             Demo.yaml_dump Demo.load_workbook Demo.tree (str "widgets.xlsx")
             (str "locales") VNone loaded
             [(str "Widgets", [Demo.header_row; Demo.empty_fr_row])]
             [Demo.header_row; Demo.empty_fr_row] E eq_refl eq_refl).
    vm_compute in E. injection E as <-. reflexivity.
  - vm_compute in E. discriminate.
  - vm_compute in E. discriminate.
Defined.

End NothingNew.

(** ** Paths of discovered files *)

Section Paths.

Import FillLocalesTranslations Names.

Lemma is_name_spec (d : pystr) :
  Names.is_name d = true <-> d <> [] /\ nosep d.
Proof.
  unfold Names.is_name, nosep.
  rewrite andb_true_iff, negb_true_iff, forallb_forall, Forall_forall.
  split; intros [H1 H2]; split.
  - intros ->. discriminate.
  - intros c Hc. specialize (H2 c Hc). apply negb_true_iff in H2.
    now apply N.eqb_neq.
  - destruct d; [contradiction|reflexivity].
  - intros c Hc. apply negb_true_iff. apply N.eqb_neq. now apply H2.
Qed.

Lemma startswith_sep_name (d : pystr) :
  nosep d -> startswith d [os_path.sep] = false.
Proof.
  intros H. destruct d as [|c d]; [reflexivity|].
  inversion H; subst. unfold startswith.
  apply andb_false_iff. left. apply N.eqb_neq. congruence.
Qed.

Lemma endswith_sep (a : pystr) :
  endswith a [os_path.sep] = true -> exists a', a = a' ++ [os_path.sep].
Proof.
  unfold endswith. cbn [rev app]. intros H.
  destruct (rev a) as [|c r] eqn:E; [discriminate|].
  unfold startswith in H. apply andb_true_iff in H as [H _].
  apply N.eqb_eq in H; subst c.
  exists (rev r). rewrite <- (rev_involutive a), E. reflexivity.
Qed.

Lemma endswith_not_sep (x : pystr) (c : N) :
  c <> os_path.sep -> endswith (x ++ [c]) [os_path.sep] = false.
Proof.
  intros Hc. unfold endswith. rewrite rev_unit. cbn [rev app].
  unfold startswith. apply andb_false_iff. left.
  apply N.eqb_neq. congruence.
Qed.

Lemma join_name (a d : pystr) :
  nosep d -> exists w, os_path.join a d = w ++ d /\ opens w.
Proof.
  intros Hd. unfold os_path.join.
  rewrite (startswith_sep_name d Hd).
  destruct (PyStr.eqb a []) eqn:Ea; cbn [orb].
  - apply pystr_eqb_eq in Ea; subst a. exists []. split; [reflexivity|now left].
  - destruct (endswith a [os_path.sep]) eqn:Ee.
    + exists a. split; [reflexivity|]. right. now apply endswith_sep.
    + exists (a ++ [os_path.sep]). split; [now rewrite <- app_assoc|].
      right. now exists a.
Qed.

Lemma name_last (w d : pystr) :
  d <> [] -> nosep d ->
  exists x c, w ++ d = x ++ [c] /\ c <> os_path.sep.
Proof.
  intros Hne Hd.
  destruct (exists_last Hne) as (d' & c & ->).
  exists (w ++ d'), c. split; [now rewrite app_assoc|].
  unfold nosep in Hd. rewrite Forall_forall in Hd.
  apply Hd. apply in_or_app. right. now left.
Qed.

Lemma join_file (x f : pystr) (c : N) :
  c <> os_path.sep -> nosep f ->
  os_path.join (x ++ [c]) f = (x ++ [c]) ++ [os_path.sep] ++ f.
Proof.
  intros Hc Hf. unfold os_path.join.
  rewrite (startswith_sep_name f Hf), (endswith_not_sep x c Hc).
  destruct (PyStr.eqb (x ++ [c]) []) eqn:E; [|reflexivity].
  apply pystr_eqb_eq in E. now destruct x.
Qed.

Lemma span_name_app (u r : pystr) :
  nosep u ->
  os_path.span_name (u ++ os_path.sep :: r) = (u, os_path.sep :: r).
Proof.
  induction 1 as [|c u Hc _ IH]; cbn [app os_path.span_name].
  - now rewrite N.eqb_refl.
  - apply N.eqb_neq in Hc. now rewrite Hc, IH.
Qed.

Lemma all_sep_app (u v : pystr) :
  os_path.all_sep (u ++ v) = os_path.all_sep u && os_path.all_sep v.
Proof.
  induction u as [|c u IH]; [reflexivity|].
  cbn [app os_path.all_sep]. now rewrite IH, andb_assoc.
Qed.

Lemma split_file (x f : pystr) (c : N) :
  c <> os_path.sep -> nosep f ->
  os_path.split ((x ++ [c]) ++ [os_path.sep] ++ f) = (x ++ [c], f).
Proof.
  intros Hc Hf. unfold os_path.split.
  rewrite !rev_app_distr. cbn [rev app]. rewrite <- !app_assoc. cbn [app].
  rewrite span_name_app by (unfold nosep; now apply Forall_rev).
  cbn [rev]. rewrite !rev_involutive.
  assert (Ha : os_path.all_sep ((x ++ [c]) ++ [os_path.sep]) = false).
  { rewrite !all_sep_app. cbn [os_path.all_sep].
    apply N.eqb_neq in Hc. rewrite Hc.
    now rewrite andb_false_r. }
  rewrite Ha. unfold rstrip.
  rewrite !rev_app_distr. cbn [rev app].
  rewrite N.eqb_refl. apply N.eqb_neq in Hc. rewrite Hc.
  cbn [rev]. now rewrite rev_involutive.
Qed.

Lemma pysplit_not_nil (s : pystr) (c : N) : PyStr.split s c <> [].
Proof.
  induction s as [|x s IH]; cbn [PyStr.split]; [discriminate|].
  destruct (N.eqb x c); [discriminate|].
  destruct (PyStr.split s c); discriminate.
Qed.

Lemma pysplit_app_sep (u v : pystr) (c : N) :
  PyStr.split (u ++ c :: v) c = PyStr.split u c ++ PyStr.split v c.
Proof.
  induction u as [|x u IH]; cbn [app PyStr.split].
  - now rewrite N.eqb_refl.
  - destruct (N.eqb x c); [now rewrite IH|].
    rewrite IH. pose proof (pysplit_not_nil u c).
    destruct (PyStr.split u c); [contradiction|reflexivity].
Qed.

Lemma pysplit_nosep (d : pystr) : nosep d -> PyStr.split d os_path.sep = [d].
Proof.
  induction 1 as [|c d Hc _ IH]; [reflexivity|].
  cbn [PyStr.split]. apply N.eqb_neq in Hc. now rewrite Hc, IH.
Qed.

Lemma pysplit_opens (w d : pystr) :
  opens w -> nosep d ->
  exists l, PyStr.split (w ++ d) os_path.sep = l ++ [d].
Proof.
  intros [->|(w' & ->)] Hd.
  - exists []. now apply pysplit_nosep.
  - exists (PyStr.split w' os_path.sep).
    rewrite <- app_assoc. cbn [app].
    now rewrite pysplit_app_sep, (pysplit_nosep d Hd).
Qed.

Lemma norm_comps_snoc (i : nat) (d : pystr) :
  d <> [] -> FS.hidden d = false ->
  forall l acc,
    os_path.norm_comps i (l ++ [d]) acc = os_path.norm_comps i l acc ++ [d].
Proof.
  intros Hne Hh.
  assert (H1 : PyStr.eqb d [] = false) by (destruct d; [contradiction|reflexivity]).
  assert (H2 : PyStr.eqb d [os_path.extsep] = false).
  { destruct (PyStr.eqb d [os_path.extsep]) eqn:E; [|reflexivity].
    apply pystr_eqb_eq in E; subst d. discriminate. }
  assert (H3 : PyStr.eqb d [os_path.extsep; os_path.extsep] = false).
  { destruct (PyStr.eqb d [os_path.extsep; os_path.extsep]) eqn:E;
      [|reflexivity].
    apply pystr_eqb_eq in E; subst d. discriminate. }
  induction l as [|comp l IH]; intros acc.
  - cbn [app os_path.norm_comps]. now rewrite H1, H2, H3.
  - cbn [app os_path.norm_comps].
    destruct (PyStr.eqb comp [] || PyStr.eqb comp [os_path.extsep]);
      [apply IH|].
    match goal with |- (if ?b then _ else _) = _ => destruct b end; apply IH.
Qed.

Lemma pyjoin_snoc (sepstr : pystr) (l : list pystr) (d : pystr) :
  PyStr.join sepstr (l ++ [d])
  = match l with
    | [] => d
    | _ :: _ => PyStr.join sepstr l ++ sepstr ++ d
    end.
Proof.
  induction l as [|x l IH]; [reflexivity|].
  destruct l as [|y l]; [reflexivity|].
  change (PyStr.join sepstr ((x :: y :: l) ++ [d]))
    with (x ++ sepstr ++ PyStr.join sepstr ((y :: l) ++ [d])).
  rewrite IH.
  change (PyStr.join sepstr (x :: y :: l))
    with (x ++ sepstr ++ PyStr.join sepstr (y :: l)).
  now rewrite <- !app_assoc.
Qed.

(** The last component of the normal form of a path that ends with a
    directory name is that name. *)
Lemma normpath_last (w d : pystr) :
  opens w -> d <> [] -> nosep d -> FS.hidden d = false ->
  last (PyStr.split (os_path.normpath (w ++ d)) os_path.sep) [] = d.
Proof.
  intros Hw Hne Hd Hh.
  unfold os_path.normpath.
  destruct (w ++ d) as [|c0 r] eqn:E; [now destruct w, d|].
  rewrite <- E. clear E c0 r.
  destruct (pysplit_opens w d Hw Hd) as (l & Hl).
  match goal with
  | |- context [os_path.norm_comps ?i _ _] => generalize i
  end.
  intros i. rewrite Hl, (norm_comps_snoc i d Hne Hh l []).
  set (nc := os_path.norm_comps i l []).
  rewrite pyjoin_snoc.
  match goal with
  | |- context [PyStr.split ?t os_path.sep] =>
      match t with
      | match ?body with [] => _ | _ :: _ => _ end => set (path' := body)
      end
  end.
  assert (Hu : exists u, opens u /\ path' = u ++ d).
  { unfold path'. destruct nc as [|x nc'].
    - exists (repeat os_path.sep i). split; [|reflexivity].
      destruct i as [|i]; [now left|]. right.
      exists (repeat os_path.sep i). cbn [repeat]. apply repeat_cons.
    - exists (repeat os_path.sep i ++ PyStr.join [os_path.sep] (x :: nc')
              ++ [os_path.sep]).
      split; [|now rewrite <- !app_assoc].
      right. exists (repeat os_path.sep i ++ PyStr.join [os_path.sep] (x :: nc')).
      now rewrite <- !app_assoc. }
  clearbody path'.
  destruct Hu as (u & Hu & ->).
  destruct (u ++ d) as [|c0 r] eqn:E; [now destruct u, d|].
  rewrite <- E.
  destruct (pysplit_opens u d Hu Hd) as (l' & ->).
  apply last_last.
Qed.

Lemma endswith_yml (f : pystr) :
  endswith f FS.yml = true -> exists base, f = base ++ FS.yml.
Proof.
  unfold endswith. intros H.
  apply startswith_split in H.
  exists (rev (skipn (length (rev FS.yml)) (rev f))).
  rewrite <- (rev_involutive f) at 1. rewrite H at 1.
  rewrite rev_app_distr. now rewrite rev_involutive.
Qed.

Lemma splitext_yml (base : pystr) (c : N) :
  c <> os_path.extsep ->
  os_path.splitext_root ((c :: base) ++ FS.yml) = c :: base.
Proof.
  intros Hc. unfold os_path.splitext_root.
  rewrite rev_app_distr.
  change (rev FS.yml) with [108%N; 109%N; 121%N; 46%N].
  cbn [app]. cbn [N.eqb os_path.extsep Pos.eqb].
  assert (He : existsb (fun c0 : N => negb (N.eqb c0 os_path.extsep))
                 (rev (c :: base)) = true).
  { apply existsb_exists. exists c. split.
    - apply -> in_rev. now left.
    - apply negb_true_iff. now apply N.eqb_neq. }
  cbv zeta. rewrite He. cbn [existsb N.eqb Pos.eqb orb andb os_path.extsep].
  apply rev_involutive.
Qed.

(** The language and the section derived from the path of a file in a
    directory: the name of the directory, and the name of the file
    without [.yml]. *)
Lemma lang_section_of_joined (head d f : pystr) :
  Names.is_name d = true -> FS.hidden d = false ->
  Names.is_name f = true -> FS.hidden f = false ->
  endswith f FS.yml = true ->
  lang_of (os_path.join (os_path.join head d) f) = d
  /\ section_of (os_path.join (os_path.join head d) f) ++ FS.yml = f.
Proof.
  intros Hd Hhd Hf Hhf Hy.
  apply is_name_spec in Hd as [Hdne Hds].
  apply is_name_spec in Hf as [Hfne Hfs].
  destruct (join_name head d Hds) as (w & -> & Hw).
  destruct (name_last w d Hdne Hds) as (x & c & Ex & Hc).
  rewrite Ex, (join_file x f c Hc Hfs).
  unfold lang_of, section_of, os_path.dirname, os_path.basename.
  rewrite (split_file x f c Hc Hfs). cbn [fst snd]. rewrite <- Ex.
  split; [now apply normpath_last|].
  destruct (endswith_yml f Hy) as (base & ->).
  destruct base as [|c0 base]; [discriminate|].
  rewrite splitext_yml; [reflexivity|].
  intros E. subst c0. unfold FS.hidden in Hhf. cbn [app] in Hhf.
  unfold startswith in Hhf; fold startswith in Hhf.
  rewrite N.eqb_refl, startswith_nil in Hhf. discriminate.
Qed.

End Paths.

(** ** What loading registers *)

Section Discovery.

Import TranslationLangNs FillLocalesTranslations.

Lemma get_In (K V : Type) (keq : K -> K -> bool) (d : list (K * V))
  (k : K) (v : V) :
  PyDict.get keq d k = Some v -> exists k', In (k', v) d.
Proof.
  induction d as [|[k' v'] d IH]; simpl; [discriminate|].
  destruct (keq k' k).
  - intros [= ->]. exists k'. now left.
  - intros H. destruct (IH H) as (k'' & Hk). exists k''. now right.
Qed.

Lemma well_named_entry (es : list (pystr * FS.node)) (k : pystr)
  (m : FS.node) :
  Names.well_named (FS.Dir es) = true -> In (k, m) es ->
  Names.is_name k = true /\ Names.well_named m = true.
Proof.
  cbn [Names.well_named]. rewrite forallb_forall. intros H Hin.
  specialize (H (k, m) Hin). cbn [fst snd] in H.
  now apply andb_true_iff in H.
Qed.

Lemma well_named_lookup_path (names : list pystr) :
  forall top n : FS.node,
    Names.well_named top = true ->
    FS.lookup_path top names = Some n -> Names.well_named n = true.
Proof.
  induction names as [|c names IH]; intros top n Hw H.
  - now injection H as <-.
  - cbn [FS.lookup_path] in H. destruct top as [content|es]; [discriminate|].
    destruct (FS.lookup es c) as [m|] eqn:E; [|discriminate].
    destruct (get_In _ _ _ es c m E) as (k & Hk).
    apply (IH m n); [|exact H].
    exact (proj2 (well_named_entry es k m Hw Hk)).
Qed.

(** The directory the pattern starts from is the locales path itself,
    when that path does not end with a separator. *)
Lemma glob_head_root (x : pystr) (c : N) :
  c <> os_path.sep ->
  os_path.dirname (os_path.dirname ((x ++ [c]) ++ str "/**/*.yml"))
  = x ++ [c].
Proof.
  intros Hc. unfold os_path.dirname.
  assert (Hstar : 42%N <> os_path.sep) by discriminate.
  assert (E1 : (x ++ [c]) ++ str "/**/*.yml"
               = (((x ++ [c]) ++ [os_path.sep] ++ [42%N]) ++ [42%N])
                 ++ [os_path.sep] ++ str "*.yml").
  { rewrite <- !app_assoc. reflexivity. }
  rewrite E1, split_file;
    [|exact Hstar|repeat constructor; discriminate].
  cbn [fst].
  assert (E2 : ((x ++ [c]) ++ [os_path.sep] ++ [42%N]) ++ [42%N]
               = (x ++ [c]) ++ [os_path.sep] ++ str "**").
  { rewrite <- !app_assoc. reflexivity. }
  rewrite E2, split_file;
    [reflexivity|exact Hc|repeat constructor; discriminate].
Qed.

(** In a tree whose entries have proper names, every file the pattern
    finds is [<dir>/<d>/<f>], where [<dir>] is the directory the pattern
    starts from, which is the locales path when that does not end with a
    separator, [d] is a directory of it and [f] an entry of [d] that ends
    in [.yml]; the language derived from the path of the file is [d] and
    the section is [f] without [.yml]. *)
Theorem discovered_file_language_and_section (top : FS.node)
  (root p : pystr) :
  Names.well_named top = true ->
  In p (FS.glob_yml top root) ->
  exists (head d f : pystr) (names : list pystr)
         (es fs : list (pystr * FS.node)),
    head = os_path.dirname (os_path.dirname (root ++ str "/**/*.yml"))
    /\ (forall (x : pystr) (c : N),
          root = x ++ [c] -> c <> os_path.sep -> head = root)
    /\ FS.names_of top head = Ok names
    /\ FS.lookup_path top names = Some (FS.Dir es)
    /\ In (d, FS.Dir fs) es
    /\ In f (map fst fs)
    /\ p = os_path.join (os_path.join head d) f
    /\ lang_of p = d
    /\ section_of p ++ str ".yml" = f.
Proof.
  intros Hw Hp.
  destruct (glob_yml_one_level top root p Hp)
    as (head & d & f & names & es & fs & Hh & Hn & Hl & Hd & Hf & Hhd & Hhf
        & Hy & ->).
  exists head, d, f, names, es, fs.
  split; [exact Hh|].
  split; [intros x c -> Hc; rewrite Hh; now apply glob_head_root|].
  repeat (split; [assumption || reflexivity|]).
  pose proof (well_named_lookup_path names top _ Hw Hl) as Hes.
  destruct (well_named_entry es d (FS.Dir fs) Hes Hd) as [Hdn Hfs].
  apply in_map_iff in Hf as ([f' m] & Ef & Hfin). cbn [fst] in Ef. subst f'.
  destruct (well_named_entry fs f m Hfs Hfin) as [Hfn _].
  now apply lang_section_of_joined.
Qed.

Lemma discovered_file_language_and_section_witness :
  exists (head d f : pystr) (names : list pystr)
         (es fs : list (pystr * FS.node)),
    head = os_path.dirname (os_path.dirname (str "locales" ++ str "/**/*.yml"))
    /\ (forall (x : pystr) (c : N),
          str "locales" = x ++ [c] -> c <> os_path.sep ->
          head = str "locales")
    /\ FS.names_of Demo.tree head = Ok names
    /\ FS.lookup_path Demo.tree names = Some (FS.Dir es)
    /\ In (d, FS.Dir fs) es
    /\ In f (map fst fs)
    /\ str "locales/en/home.yml" = os_path.join (os_path.join head d) f
    /\ lang_of (str "locales/en/home.yml") = d
    /\ section_of (str "locales/en/home.yml") ++ str ".yml" = f.
Proof.
  apply (discovered_file_language_and_section Demo.tree (str "locales")).
  - reflexivity.
  - right. left. reflexivity.
Defined.

(** After the loop over the files, a place of the index is as it was or
    holds an unmodified store loaded from one of the files, the last one
    whose path gives that language and section. *)
Lemma loadFiles_slots
  (yaml_load : pystr -> result yamlval)
  (fs : FS.node) (ymlFiles : list pystr) :
  forall a a' : TranslationData.t,
    loadFiles yaml_load fs ymlFiles a = Ok a' ->
    forall (lang : pystr) (sec : pyval),
      Index.find_store a' lang sec = Index.find_store a lang sec
      \/ exists ns : store,
           Index.find_store a' lang sec = Some ns
           /\ In (file ns) ymlFiles
           /\ lang = lang_of (file ns)
           /\ sec = VStr (section_of (file ns))
           /\ modified ns = false
           /\ TranslationLangNs.loadCurrentTranslations yaml_load fs
                (TranslationLangNs.__init__ (file ns)) = Ok ns.
Proof.
  induction ymlFiles as [|f files IH]; intros a a' H lang sec.
  - injection H as <-. now left.
  - cbn [loadFiles] in H.
    destruct (TranslationLangNs.loadCurrentTranslations yaml_load fs
                (TranslationLangNs.__init__ f)) as [ns| |] eqn:E;
      try discriminate.
    cbn [bind] in H.
    destruct (loadCurrentTranslations_inv yaml_load fs _ ns E)
      as (stream & td & d & _ & _ & _ & Hns).
    assert (Hfile : file ns = f) by (now rewrite Hns).
    destruct (IH _ _ H lang sec)
      as [Hsame|(ns' & Hf & Hin & Hl & Hs & Hm & Hld)].
    + rewrite Hsame.
      destruct (addTranslations_find a (lang_of f) (VStr (section_of f)) ns)
        as [Hhit Hmiss].
      destruct (PyStr.eqb lang (lang_of f)) eqn:El.
      * apply pystr_eqb_eq in El. subst lang.
        destruct (pyval_eqb sec (VStr (section_of f))) eqn:Es.
        -- apply pyval_eqb_eq in Es. subst sec.
           right. exists ns. rewrite Hhit, Hfile.
           split; [reflexivity|]. split; [now left|].
           split; [reflexivity|]. split; [reflexivity|].
           split; [now rewrite Hns|exact E].
        -- left. apply Hmiss. right. intros ->.
           now rewrite pyval_eqb_refl in Es.
      * left. apply Hmiss. left. intros ->.
        now rewrite pystr_eqb_refl in El.
    + right. exists ns'. repeat split; try assumption. now right.
Qed.

(** [FillLocalesTranslations.loadCurrentTranslations], when it returns,
    has a store for every file the pattern found, at the language and
    section derived from the path of the file: the store that
    [TranslationLangNs.loadCurrentTranslations] returns for a found file
    with that language and section, so with the data of that file, and
    not modified.  Every place of the index is as it was or holds such a
    store. *)
Theorem load_registers_the_discovered_files
  (yaml_load : pystr -> result yamlval)
  (fs : FS.node) (self self' : task) :
  loadCurrentTranslations yaml_load fs self = Ok self' ->
  (forall p : pystr, In p (FS.glob_yml fs (localesPath self)) ->
     exists ns : store,
       Index.find_store (allTranslations self') (lang_of p)
         (VStr (section_of p)) = Some ns
       /\ In (file ns) (FS.glob_yml fs (localesPath self))
       /\ lang_of (file ns) = lang_of p
       /\ section_of (file ns) = section_of p
       /\ modified ns = false
       /\ TranslationLangNs.loadCurrentTranslations yaml_load fs
            (TranslationLangNs.__init__ (file ns)) = Ok ns)
  /\ (forall (lang : pystr) (sec : pyval),
        Index.find_store (allTranslations self') lang sec
        = Index.find_store (allTranslations self) lang sec
        \/ exists ns : store,
             Index.find_store (allTranslations self') lang sec = Some ns
             /\ In (file ns) (FS.glob_yml fs (localesPath self))
             /\ lang = lang_of (file ns)
             /\ sec = VStr (section_of (file ns))
             /\ modified ns = false
             /\ TranslationLangNs.loadCurrentTranslations yaml_load fs
                  (TranslationLangNs.__init__ (file ns)) = Ok ns).
Proof.
  unfold loadCurrentTranslations. intros H.
  destruct (loadFiles yaml_load fs (FS.glob_yml fs (localesPath self))
              (allTranslations self)) as [a| |] eqn:E; try discriminate.
  cbn [bind] in H. injection H as <-.
  cbn [allTranslations set_allTranslations].
  split.
  - revert E. generalize (allTranslations self).
    generalize (FS.glob_yml fs (localesPath self)) as files.
    induction files as [|f files IH]; intros a0 E p Hp; [destruct Hp|].
    cbn [loadFiles] in E.
    destruct (TranslationLangNs.loadCurrentTranslations yaml_load fs
                (TranslationLangNs.__init__ f)) as [ns| |] eqn:En;
      try discriminate.
    cbn [bind] in E.
    destruct Hp as [<-|Hp].
    + destruct (loadCurrentTranslations_inv yaml_load fs _ ns En)
        as (stream & td & d & _ & _ & _ & Hns).
      assert (Hfile : file ns = f) by (now rewrite Hns).
      destruct (loadFiles_slots yaml_load fs files _ a E (lang_of f)
                  (VStr (section_of f)))
        as [Hsame|(ns' & Hf & Hin & Hl & Hs & Hm & Hld)].
      * exists ns. rewrite Hsame.
        rewrite (proj1 (addTranslations_find a0 (lang_of f)
                          (VStr (section_of f)) ns)).
        rewrite Hfile.
        split; [reflexivity|]. split; [now left|].
        split; [reflexivity|]. split; [reflexivity|].
        split; [now rewrite Hns|exact En].
      * exists ns'. injection Hs as Hs.
        repeat split; try assumption; try congruence. now right.
    + destruct (IH _ E p Hp) as (ns' & Hf & Hin & Hl & Hs & Hm & Hld).
      exists ns'. repeat split; try assumption. now right.
  - intros lang sec.
    destruct (loadFiles_slots yaml_load fs _ _ a E lang sec)
      as [Hsame|(ns & Hf & Hin & Hl & Hs & Hm & Hld)]; [now left|].
    right. now exists ns.
Qed.

Lemma load_registers_the_discovered_files_witness :
  exists ns : store,
    Index.find_store
      (TranslationData.addTranslations
         (TranslationData.addTranslations
            (TranslationData.__init__ (str "locales")) (str "fr")
            (VStr (str "home"))
            (set_data (TranslationLangNs.__init__ (str "locales/fr/home.yml"))
               [(VStr (str "title"), PlainStr (str "Accueil"))]))
         (str "en") (VStr (str "home"))
         (set_data (TranslationLangNs.__init__ (str "locales/en/home.yml"))
            [(VStr (str "title"), PlainStr (str "Home"))]))
      (lang_of (str "locales/en/home.yml"))
      (VStr (section_of (str "locales/en/home.yml"))) = Some ns
    /\ In (file ns) (FS.glob_yml Demo.tree (str "locales"))
    /\ lang_of (file ns) = lang_of (str "locales/en/home.yml")
    /\ section_of (file ns) = section_of (str "locales/en/home.yml")
    /\ modified ns = false
    /\ TranslationLangNs.loadCurrentTranslations Demo.yaml_load Demo.tree
         (TranslationLangNs.__init__ (file ns)) = Ok ns.
Proof.
  refine (proj1 (load_registers_the_discovered_files Demo.yaml_load Demo.tree
                   Demo.task
                   (set_allTranslations Demo.task _) _)
            (str "locales/en/home.yml") _).
  - vm_compute. reflexivity.
  - right. left. reflexivity.
Defined.

End Discovery.

(** ** Cells the import cannot store *)

Section BadCells.

Import TranslationLangNs FillLocalesTranslations.

(** A row with fewer than seven cells stops the import with
    [IndexError], whatever its cells hold. *)
Theorem short_row_raises_IndexError (ow : bool) (row : list pyval)
  (a : TranslationData.t) :
  length row < 7 -> addRow ow row a = Raise IndexError.
Proof.
  intros H. unfold addRow.
  assert (Hi : forall i, item row i = Ok (nth i row VNone)
                         \/ item row i = Raise IndexError).
  { intros i. unfold item. destruct (nth_error row i) as [v|] eqn:E.
    - left. now rewrite (nth_error_nth row i VNone E).
    - now right. }
  assert (H6 : item row 6 = Raise IndexError).
  { unfold item. destruct (nth_error row 6) eqn:E; [|reflexivity].
    assert (6 < length row) by (apply nth_error_Some; congruence). lia. }
  destruct (Hi 3) as [-> | ->]; [|reflexivity]. cbn [bind].
  destruct (Hi 4) as [-> | ->]; [|reflexivity]. cbn [bind].
  destruct (Hi 5) as [-> | ->]; [|reflexivity]. cbn [bind].
  now rewrite H6.
Qed.

Lemma short_row_raises_IndexError_witness :
  addRow false [VNone; VNone; VNone; VStr (str "home"); VStr (str "title");
                VStr (str "Bienvenue")]
    (TranslationData.__init__ (str "locales"))
  = Raise IndexError.
Proof.
  apply short_row_raises_IndexError. simpl. lia.
Defined.

(** A value that is no string cannot be stored: with a string section,
    [TranslationData.addTranslation] raises whenever [overwrite] is set
    or the path is not yet there, [AttributeError] for [None] or a number,
    which have no [replace], and [TypeError] for a date or a time, whose
    own [replace] takes no string.  (When the path is there and
    [overwrite] is not set, the call returns before it looks at the
    value.) *)
Theorem non_string_value_cannot_be_stored (a : TranslationData.t)
  (lang name : pystr) (path value : pyval) (ow km : bool) :
  (forall s : pystr, value <> VStr s) ->
  ow = true \/ Index.present a lang (VStr name) path = false ->
  TranslationData.addTranslation a lang (VStr name) path value ow km
  = Raise (match value with
           | VDate _ => TypeError
           | VNone | VInt _ | VStr _ => AttributeError
           end).
Proof.
  intros Hv Hc.
  unfold Index.present, Index.find_store in Hc.
  unfold TranslationData.addTranslation.
  cbn [TranslationData.translations TranslationData.localesPath
       TranslationData.log_call].
  set (tr := TranslationData.ensure_lang (TranslationData.translations a) lang).
  rewrite <- (sections_ensure (TranslationData.translations a) lang lang) in Hc.
  fold tr in Hc. unfold PyDict.mem at 1.
  assert (Hraise : forall ns : store,
            ow = true \/ PyDict.mem pyval_eqb (data ns) path = false ->
            TranslationLangNs.addTranslation ns path value ow km
            = Raise (match value with
                     | VDate _ => TypeError
                     | VNone | VInt _ | VStr _ => AttributeError
                     end)).
  { intros ns Hns. unfold TranslationLangNs.addTranslation.
    assert (E : negb ow && PyDict.mem pyval_eqb (data ns) path = false).
    { destruct Hns as [-> | ->]; [reflexivity|apply andb_false_r]. }
    rewrite E. destruct value as [| |s|]; try reflexivity.
    now elim (Hv s). }
  destruct (PyDict.get pyval_eqb (TranslationData.sections tr lang) (VStr name))
    as [ns|] eqn:Eg; cbn [negb bind].
  - rewrite Eg. rewrite Hraise; [reflexivity|].
    destruct Hc as [Hc|Hc]; [now left|now right].
  - cbn [TranslationData.add_yml bind].
    destruct (sections_after_set tr lang (VStr name)
                (TranslationLangNs.__init__
                   (os_path.join
                      (os_path.join (TranslationData.localesPath a) lang)
                      (name ++ FS.yml)))) as [H1 _].
    rewrite H1. rewrite Hraise; [reflexivity|]. now right.
Qed.

Lemma non_string_value_cannot_be_stored_witness :
  TranslationData.addTranslation (TranslationData.__init__ (str "locales"))
    (str "fr") (VStr (str "home")) (VStr (str "count")) (VInt 3) false false
  = Raise AttributeError
  /\ TranslationData.addTranslation (TranslationData.__init__ (str "locales"))
       (str "fr") (VStr (str "home")) (VStr (str "since")) (VDate 0) true false
     = Raise TypeError.
Proof.
  split.
  - apply (non_string_value_cannot_be_stored
             (TranslationData.__init__ (str "locales")) (str "fr") (str "home")
             (VStr (str "count")) (VInt 3) false false).
    + intros s. discriminate.
    + right. reflexivity.
  - apply (non_string_value_cannot_be_stored
             (TranslationData.__init__ (str "locales")) (str "fr") (str "home")
             (VStr (str "since")) (VDate 0) true false).
    + intros s. discriminate.
    + left. reflexivity.
Defined.

(** A section that is no string (an empty section cell) cannot name a
    file: when the index has no store for the language and that section,
    [TranslationData.addTranslation] raises [TypeError] where it builds
    the file name. *)
Theorem non_string_section_raises_TypeError (a : TranslationData.t)
  (lang : pystr) (section path value : pyval) (ow km : bool) :
  (forall s : pystr, section <> VStr s) ->
  Index.find_store a lang section = None ->
  TranslationData.addTranslation a lang section path value ow km
  = Raise TypeError.
Proof.
  intros Hs Hf. unfold Index.find_store in Hf.
  unfold TranslationData.addTranslation.
  cbn [TranslationData.translations TranslationData.localesPath
       TranslationData.log_call].
  unfold PyDict.mem. rewrite sections_ensure, Hf. cbn [negb].
  destruct section as [| |s|]; try reflexivity. now elim (Hs s).
Qed.

Lemma non_string_section_raises_TypeError_witness :
  TranslationData.addTranslation (TranslationData.__init__ (str "locales"))
    (str "fr") VNone (VStr (str "title")) (VStr (str "Bienvenue")) false false
  = Raise TypeError.
Proof.
  apply non_string_section_raises_TypeError.
  - intros s. discriminate.
  - reflexivity.
Defined.

End BadCells.

(** ** Saving where no directory is *)

Section MissingDirectory.

Import TranslationLangNs Names.

Lemma lookup_path_app (names : list pystr) (c : pystr) :
  forall top : FS.node,
    FS.lookup_path top (names ++ [c])
    = match FS.lookup_path top names with
      | Some (FS.Dir es) => FS.lookup es c
      | _ => None
      end.
Proof.
  induction names as [|x names IH]; intros top; cbn [app FS.lookup_path].
  - destruct top as [content|es]; [reflexivity|].
    now destruct (FS.lookup es c).
  - destruct top as [content|es]; [reflexivity|].
    destruct (FS.lookup es x); [apply IH|reflexivity].
Qed.

Lemma resolve_app (top : FS.node) (l1 l2 : list pystr) :
  forall stack names,
    FS.resolve top stack l1 = Ok names ->
    FS.resolve top stack (l1 ++ l2) = FS.resolve top (rev names) l2.
Proof.
  induction l1 as [|c l1 IH]; intros stack names H.
  - cbn [FS.resolve] in H. injection H as <-. now rewrite rev_involutive.
  - cbn [app FS.resolve] in *.
    destruct (FS.lookup_path top (rev stack)) as [[content|es]|];
      try discriminate.
    destruct (PyStr.eqb c [] || PyStr.eqb c [os_path.extsep]);
      [now apply IH|].
    destruct (PyStr.eqb c [os_path.extsep; os_path.extsep]); now apply IH.
Qed.

(** [save] never makes a directory.  A modified store bound to
    [<localesPath>/<lang>/<section>.yml], as [TranslationData] binds a
    store it creates, cannot be saved when the locales directory has no
    entry [lang]: [open] raises [FileNotFoundError]. *)
Theorem save_needs_the_language_directory
  (yaml_dump : list (pyval * yamlstr) -> pystr)
  (fs : FS.node) (self : store) (localesPath lang name : pystr)
  (names : list pystr) (es : list (pystr * FS.node)) :
  modified self = true ->
  file self = os_path.join (os_path.join localesPath lang) (name ++ str ".yml") ->
  localesPath <> [] ->
  endswith localesPath [os_path.sep] = false ->
  is_name lang = true -> FS.hidden lang = false ->
  startswith name [os_path.sep] = false ->
  FS.names_of fs localesPath = Ok names ->
  FS.lookup_path fs names = Some (FS.Dir es) ->
  FS.lookup es lang = None ->
  save yaml_dump self fs = Raise FileNotFoundError.
Proof.
  intros Hm Hfile Hne Hend Hlang Hhid Hname Hnames Hdir Hmiss.
  unfold save. rewrite Hm, Hfile. unfold FS.write.
  apply is_name_spec in Hlang as [Hlne Hls].
  assert (Ej : os_path.join localesPath lang
               = localesPath ++ os_path.sep :: lang).
  { unfold os_path.join. rewrite (startswith_sep_name lang Hls), Hend.
    destruct (PyStr.eqb localesPath []) eqn:E; [|reflexivity].
    apply pystr_eqb_eq in E. contradiction. }
  rewrite Ej.
  destruct (name_last (localesPath ++ [os_path.sep]) lang Hlne Hls)
    as (x & c & Ex & Hc).
  rewrite <- app_assoc in Ex. cbn [app] in Ex. rewrite Ex.
  assert (Ef : os_path.join (x ++ [c]) (name ++ str ".yml")
               = (x ++ [c]) ++ os_path.sep :: (name ++ str ".yml")).
  { unfold os_path.join. rewrite (endswith_not_sep x c Hc).
    assert (Hs : startswith (name ++ str ".yml") [os_path.sep] = false).
    { destruct name as [|n0 name']; [reflexivity|]. cbn [app].
      unfold startswith in Hname; fold startswith in Hname.
      unfold startswith; fold startswith.
      now rewrite startswith_nil in *. }
    rewrite Hs.
    destruct (PyStr.eqb (x ++ [c]) []) eqn:E; [|reflexivity].
    apply pystr_eqb_eq in E. now destruct x. }
  rewrite Ef, <- Ex. unfold FS.names_of in *.
  destruct localesPath as [|l0 lp] eqn:Elp; [contradiction|].
  rewrite <- Elp in *.
  destruct ((localesPath ++ os_path.sep :: lang)
            ++ os_path.sep :: name ++ str ".yml") as [|p0 pr] eqn:Ep.
  { rewrite Elp in Ep. discriminate. }
  rewrite <- Ep. clear Ep p0 pr.
  rewrite <- app_assoc. cbn [app].
  rewrite pysplit_app_sep, pysplit_app_sep, (pysplit_nosep lang Hls).
  rewrite (resolve_app fs _ _ [] names Hnames).
  cbn [app FS.resolve]. rewrite rev_involutive, Hdir.
  assert (H1 : PyStr.eqb lang [] = false)
    by (destruct lang; [contradiction|reflexivity]).
  assert (H2 : PyStr.eqb lang [os_path.extsep] = false).
  { destruct (PyStr.eqb lang [os_path.extsep]) eqn:E; [|reflexivity].
    apply pystr_eqb_eq in E. subst lang. discriminate. }
  assert (H3 : PyStr.eqb lang [os_path.extsep; os_path.extsep] = false).
  { destruct (PyStr.eqb lang [os_path.extsep; os_path.extsep]) eqn:E;
      [|reflexivity].
    apply pystr_eqb_eq in E. subst lang. discriminate. }
  rewrite H1, H2, H3. cbn [orb].
  pose proof (pysplit_not_nil (name ++ str ".yml") os_path.sep) as Hnn.
  destruct (PyStr.split (name ++ str ".yml") os_path.sep) as [|c1 cs];
    [contradiction|].
  cbn [FS.resolve rev]. rewrite rev_involutive.
  rewrite lookup_path_app, Hdir, Hmiss. reflexivity.
Qed.

Lemma save_needs_the_language_directory_witness :
  save Demo.yaml_dump
    (set_modified
       (set_data (__init__ (str "locales/de/home.yml"))
          [(VStr (str "title"), PlainStr (str "Start"))]) true)
    Demo.tree
  = Raise FileNotFoundError.
Proof.
  apply (save_needs_the_language_directory Demo.yaml_dump Demo.tree _
           (str "locales") (str "de") (str "home") [str "locales"]
           [ (str "top.yml", FS.File (str "title: Racine"));
             (str "fr",
              FS.Dir
                [ (str "home.yml", FS.File (str "title: Accueil"));
                  (str ".draft.yml", FS.File (str "title: Brouillon"));
                  (str "notes.txt", FS.File (str "rien"));
                  (str "extra",
                   FS.Dir [ (str "deep.yml", FS.File (str "title: Fond")) ]) ]);
             (str "en",
              FS.Dir [ (str "home.yml", FS.File (str "title: Home")) ]) ]);
    try reflexivity.
  discriminate.
Defined.

End MissingDirectory.

(** ** What the import stores and where *)

Section ImportedValues.

Import TranslationLangNs FillLocalesTranslations Names.

(** A value stored without [keepMarkdown], as the import stores every
    value, has no line break left, so its style depends on its length
    alone: folded above 76 characters, plain otherwise. *)
Theorem imported_value_has_no_line_break (self self' : store)
  (path : pyval) (s : pystr) :
  addTranslation self path (VStr s) true false = Ok self' ->
  exists y : yamlstr,
    PyDict.get pyval_eqb (data self') path = Some y
    /\ contains ValueReplacer.newline (text y) = false
    /\ y = (if 76 <? length (text y) then FoldedScalarString (text y)
            else PlainStr (text y)).
Proof.
  intros H.
  destruct (addTranslation_stored self path s false) as (y & Hy & Ha).
  rewrite Ha in H. injection H as <-.
  exists y. cbn [data set_modified set_data].
  split; [apply (get_set_same pyval yamlstr pyval_eqb pyval_eqb_eq)|].
  pose proof (stringToYaml_str_text _ y Hy) as Ht.
  assert (Hn : contains ValueReplacer.newline (text y) = false).
  { rewrite Ht.
    apply (replace_newline_free (PyStr.replace s nom nickname)).
    apply replace_rewrite. }
  split; [exact Hn|].
  pose proof (stringToYaml_text _ y Hy) as Hs.
  rewrite stringToYaml_str, Hn in Hs. cbn [orb] in Hs.
  injection Hs as Hs. now symmetry.
Qed.

Lemma imported_value_has_no_line_break_witness :
  exists y : yamlstr,
    PyDict.get pyval_eqb
      (data (set_modified
               (set_data Demo.home
                  [(VStr (str "title"), PlainStr (str "a<br />b"))]) true))
      (VStr (str "title")) = Some y
    /\ contains ValueReplacer.newline (text y) = false
    /\ y = (if 76 <? length (text y) then FoldedScalarString (text y)
            else PlainStr (text y)).
Proof.
  apply (imported_value_has_no_line_break Demo.home _ (VStr (str "title"))
           (str "a" ++ ValueReplacer.newline ++ str "b")).
  reflexivity.
Defined.

(** The path [TranslationData] binds a new store to gives back the
    language and the section when [loadCurrentTranslations] derives them
    from it, for a language and a section file with proper, not hidden
    names: a file the import writes is registered under the same
    language and section by the next run that finds it. *)
Theorem bound_path_gives_language_and_section (localesPath lang name : pystr) :
  is_name lang = true -> FS.hidden lang = false ->
  is_name name = true -> FS.hidden name = false ->
  lang_of (os_path.join (os_path.join localesPath lang) (name ++ str ".yml"))
  = lang
  /\ section_of
       (os_path.join (os_path.join localesPath lang) (name ++ str ".yml"))
     = name.
Proof.
  intros Hl Hhl Hn Hhn.
  assert (Hf : is_name (name ++ str ".yml") = true).
  { apply is_name_spec in Hn as [Hne Hns]. apply is_name_spec. split.
    - destruct name; [contradiction|discriminate].
    - unfold nosep in *. apply Forall_app. split; [assumption|].
      repeat constructor; discriminate. }
  assert (Hhf : FS.hidden (name ++ str ".yml") = false).
  { destruct name as [|c name']; [discriminate|].
    unfold FS.hidden in *. cbn [app].
    unfold startswith in Hhn; fold startswith in Hhn.
    unfold startswith; fold startswith.
    now rewrite startswith_nil in *. }
  assert (Hy : endswith (name ++ str ".yml") FS.yml = true).
  { unfold endswith. rewrite rev_app_distr. apply startswith_app. }
  destruct (lang_section_of_joined localesPath lang (name ++ str ".yml")
              Hl Hhl Hf Hhf Hy) as [H1 H2].
  split; [exact H1|].
  now apply app_inv_tail in H2.
Qed.

Lemma bound_path_gives_language_and_section_witness :
  lang_of (os_path.join (os_path.join (str "locales") (str "fr"))
             (str "home" ++ str ".yml")) = str "fr"
  /\ section_of (os_path.join (os_path.join (str "locales") (str "fr"))
                   (str "home" ++ str ".yml")) = str "home".
Proof.
  apply bound_path_gives_language_and_section; reflexivity.
Defined.

End ImportedValues.

(** ** Saving and loading again *)

Section SaveLoad.

Import TranslationLangNs.








End SaveLoad.
